(** * TranslationScreen: the voice-capture-to-speech orchestration

    A shallow embedding of the [TranslationScreen] component (React Native,
    expo-av / expo-speech) and proofs about its capture controller, its
    auto-stop timer, its translation hand-off and its language catalog.

    How the JavaScript is read:

    - [useState] cells and [useRef] cells are fields of one store, [Screen].
      A ref is read and written in place; a state cell is written by its
      setter and read through the closure of a render.
    - Every render of the component builds new closures.  A closure reads the
      state variables of the render that built it, whatever the store holds
      by the time it runs.  [Render] is that snapshot; every handler takes the
      render it belongs to.
    - An [async] function runs until its next [await], where it is parked as
      an [Await] in the task pool; it is resumed by an [EvResume] event that
      carries the answer of the awaited operation.  Between the two any other
      event may run.
    - The native recorder, the network and the speech engine are outside the
      component: what they answer is an input of the model ([Answer]), what
      the component asks of them is recorded in [log].  A native recorder
      exists from the moment its [prepareToRecordAsync] resolves until its
      [stopAndUnloadAsync] resolves ([native]).
    - Time is left out: an armed timer may expire at any point.
    - A string holds the UTF-8 bytes of the JavaScript string, as a string
      literal of Rocq does. *)

From Stdlib Require Import List String Ascii Bool Arith ZArith Lia.
From Stdlib Require Import DecimalString DecimalNat.
Import ListNotations.
Open Scope string_scope.

Set Implicit Arguments.

(** ** Values *)

(** An entry of the language catalog ([GET /languages]). *)
Record Language := mkLanguage
  { lang_id : nat; lang_code : string; lang_name : string }.

(** The fields of [getStatusAsync()]'s result that the component reads. *)
Record RecordingStatus := mkStatus
  { canRecord : bool; status_isRecording : bool }.

(** How a promise settles. *)
Inductive Outcome (A : Type) : Type :=
| Resolved (a : A)
| Rejected.
Arguments Rejected {A}.

(** A [fetch] response: the status code and what [response.json()] settles
    to.  A rejected [fetch] (network failure) is [Rejected] one level up. *)
Record Response (A : Type) := mkResponse
  { http_status : Z; body : Outcome A }.

Definition FetchOutcome (A : Type) := Outcome (Response A).

(** [response.ok]: the status is in the range 200-299. *)
Definition response_ok {A} (r : Response A) : bool :=
  ((200 <=? http_status r) && (http_status r <=? 299))%Z.

(** What the closures of one render see. *)
Record Render := mkRender
  { r_inputText : string;
    r_translatedText : string;
    r_targetLanguage : string;
    r_hasAudioPermission : bool }.

(** Callbacks handed to [setTimeout]. *)
Inductive Callback :=
| CbAutoStop (r : Render)                     (* startRecording, 8000 ms *)
| CbShowDetected (r : Render) (text : string) (* processRecordedAudio, 100 ms *)
| CbTranslate (r : Render)                    (* handleQuickPhrase 100 ms, dialog 500 ms *)
| CbSpeak (r : Render).                       (* handleTranslate, 500 ms *)

(** What [cleanupRecording] returns to. *)
Inductive AfterCleanup :=
| ThenReturn                 (* the unmount effect does not wait for it *)
| ThenStart (r : Render).    (* [await cleanupRecording()] in startRecording *)

(** The suspension points of the async functions. *)
Inductive Await :=
| AwCleanupStatus (k : AfterCleanup)
| AwCleanupUnload (k : AfterCleanup) (rec : nat)
| AwStartDelay (r : Render)
| AwStartAudioMode (r : Render)
| AwStartPrepare (r : Render) (rec : nat)
| AwStartStartAsync (r : Render) (rec : nat)
| AwStopStatus (r : Render)
| AwStopUnload (r : Render) (rec : nat)
| AwRecognition (r : Render)
| AwTranslate (r : Render)
| AwLanguages
| AwPermission
| AwAudioSetup.

(** What the component does to the outside, in the order it does it. *)
Inductive Effect :=
| Alert (title message : string)
| Vibrate
| Speak (text language : string)
| SpeechStop
| PostTranslate (text source_lang target_lang : string)
| GetLanguages
| RequestPermissions
| SetAudioMode
| Sleep (ms : nat)
| GetStatus (rec : nat)
| StopAndUnload (rec : nat)
| Prepare (rec : nat)
| StartAsync (rec : nat)
| Transcribe (uri : string).

(** ** The store *)

(** The [useState] cells. *)
Record ReactState := mkReact
  { inputText : string;
    translatedText : string;
    targetLanguage : string;
    loading : bool;
    isRecording : bool;
    isListening : bool;
    languages : list Language;
    recordingDuration : nat;
    hasAudioPermission : bool;
    isTranscribing : bool }.

(** The [useRef] cells. *)
Record Refs := mkRefs
  { recordingRef : option nat;
    recordingTimeoutRef : option nat;
    durationIntervalRef : option nat;
    isRecordingRef : bool;
    isMountedRef : bool }.

(** The run time around the component.  [native] holds the recordings whose
    [prepareToRecordAsync] has resolved and whose [stopAndUnloadAsync] has not:
    the native recorders that exist. *)
Record World := mkWorld
  { timers : list (nat * Callback);
    intervals : list nat;
    nextId : nat;
    native : list nat;
    tasks : list Await;
    dialogs : list Render;
    log : list Effect }.

Record Screen := mkScreen
  { react : ReactState; refs : Refs; world : World }.

Definition on_react (f : ReactState -> ReactState) (s : Screen) : Screen :=
  {| react := f (react s); refs := refs s; world := world s |}.
Definition on_refs (f : Refs -> Refs) (s : Screen) : Screen :=
  {| react := react s; refs := f (refs s); world := world s |}.
Definition on_world (f : World -> World) (s : Screen) : Screen :=
  {| react := react s; refs := refs s; world := f (world s) |}.

(** *** Setters of the state cells *)

Definition setInputText (v : string) : Screen -> Screen :=
  on_react (fun c =>
    mkReact v (translatedText c) (targetLanguage c) (loading c) (isRecording c)
      (isListening c) (languages c) (recordingDuration c)
      (hasAudioPermission c) (isTranscribing c)).
Definition setTranslatedText (v : string) : Screen -> Screen :=
  on_react (fun c =>
    mkReact (inputText c) v (targetLanguage c) (loading c) (isRecording c)
      (isListening c) (languages c) (recordingDuration c)
      (hasAudioPermission c) (isTranscribing c)).
Definition setTargetLanguage (v : string) : Screen -> Screen :=
  on_react (fun c =>
    mkReact (inputText c) (translatedText c) v (loading c) (isRecording c)
      (isListening c) (languages c) (recordingDuration c)
      (hasAudioPermission c) (isTranscribing c)).
Definition setLoading (v : bool) : Screen -> Screen :=
  on_react (fun c =>
    mkReact (inputText c) (translatedText c) (targetLanguage c) v
      (isRecording c) (isListening c) (languages c) (recordingDuration c)
      (hasAudioPermission c) (isTranscribing c)).
Definition setIsRecording (v : bool) : Screen -> Screen :=
  on_react (fun c =>
    mkReact (inputText c) (translatedText c) (targetLanguage c) (loading c) v
      (isListening c) (languages c) (recordingDuration c)
      (hasAudioPermission c) (isTranscribing c)).
Definition setIsListening (v : bool) : Screen -> Screen :=
  on_react (fun c =>
    mkReact (inputText c) (translatedText c) (targetLanguage c) (loading c)
      (isRecording c) v (languages c) (recordingDuration c)
      (hasAudioPermission c) (isTranscribing c)).
Definition setLanguages (v : list Language) : Screen -> Screen :=
  on_react (fun c =>
    mkReact (inputText c) (translatedText c) (targetLanguage c) (loading c)
      (isRecording c) (isListening c) v (recordingDuration c)
      (hasAudioPermission c) (isTranscribing c)).
(** The only use of this setter is the functional update [prev => prev + 1]. *)
Definition setRecordingDuration (f : nat -> nat) : Screen -> Screen :=
  on_react (fun c =>
    mkReact (inputText c) (translatedText c) (targetLanguage c) (loading c)
      (isRecording c) (isListening c) (languages c) (f (recordingDuration c))
      (hasAudioPermission c) (isTranscribing c)).
Definition setHasAudioPermission (v : bool) : Screen -> Screen :=
  on_react (fun c =>
    mkReact (inputText c) (translatedText c) (targetLanguage c) (loading c)
      (isRecording c) (isListening c) (languages c) (recordingDuration c) v
      (isTranscribing c)).
Definition setIsTranscribing (v : bool) : Screen -> Screen :=
  on_react (fun c =>
    mkReact (inputText c) (translatedText c) (targetLanguage c) (loading c)
      (isRecording c) (isListening c) (languages c) (recordingDuration c)
      (hasAudioPermission c) v).

(** *** Writes to the refs *)

Definition set_recordingRef (v : option nat) : Screen -> Screen :=
  on_refs (fun c =>
    mkRefs v (recordingTimeoutRef c) (durationIntervalRef c)
      (isRecordingRef c) (isMountedRef c)).
Definition set_recordingTimeoutRef (v : option nat) : Screen -> Screen :=
  on_refs (fun c =>
    mkRefs (recordingRef c) v (durationIntervalRef c)
      (isRecordingRef c) (isMountedRef c)).
Definition set_durationIntervalRef (v : option nat) : Screen -> Screen :=
  on_refs (fun c =>
    mkRefs (recordingRef c) (recordingTimeoutRef c) v
      (isRecordingRef c) (isMountedRef c)).
Definition set_isRecordingRef (v : bool) : Screen -> Screen :=
  on_refs (fun c =>
    mkRefs (recordingRef c) (recordingTimeoutRef c) (durationIntervalRef c)
      v (isMountedRef c)).
Definition set_isMountedRef (v : bool) : Screen -> Screen :=
  on_refs (fun c =>
    mkRefs (recordingRef c) (recordingTimeoutRef c) (durationIntervalRef c)
      (isRecordingRef c) v).

(** *** The run time *)

Definition set_timers (v : list (nat * Callback)) : Screen -> Screen :=
  on_world (fun w =>
    mkWorld v (intervals w) (nextId w) (native w) (tasks w) (dialogs w) (log w)).
Definition set_intervals (v : list nat) : Screen -> Screen :=
  on_world (fun w =>
    mkWorld (timers w) v (nextId w) (native w) (tasks w) (dialogs w) (log w)).
Definition set_nextId (v : nat) : Screen -> Screen :=
  on_world (fun w =>
    mkWorld (timers w) (intervals w) v (native w) (tasks w) (dialogs w) (log w)).
Definition set_native (v : list nat) : Screen -> Screen :=
  on_world (fun w =>
    mkWorld (timers w) (intervals w) (nextId w) v (tasks w) (dialogs w) (log w)).
Definition set_tasks (v : list Await) : Screen -> Screen :=
  on_world (fun w =>
    mkWorld (timers w) (intervals w) (nextId w) (native w) v (dialogs w) (log w)).
Definition set_dialogs (v : list Render) : Screen -> Screen :=
  on_world (fun w =>
    mkWorld (timers w) (intervals w) (nextId w) (native w) (tasks w) v (log w)).
Definition set_log (v : list Effect) : Screen -> Screen :=
  on_world (fun w =>
    mkWorld (timers w) (intervals w) (nextId w) (native w) (tasks w) (dialogs w) v).

(** Record an effect; the newest entry is the last one. *)
Definition emit (e : Effect) (s : Screen) : Screen :=
  set_log (log (world s) ++ [e]) s.

(** A fresh identity (a timer id, an interval id, a [new Audio.Recording()]). *)
Definition bump (s : Screen) : Screen := set_nextId (S (nextId (world s))) s.

(** [setTimeout(cb, _)]: the timer's id is the [nextId] of the store before. *)
Definition setTimeout (cb : Callback) (s : Screen) : Screen :=
  bump (set_timers (timers (world s) ++ [(nextId (world s), cb)]) s).

Definition clearTimeout (t : nat) (s : Screen) : Screen :=
  set_timers (filter (fun p => negb (Nat.eqb (fst p) t)) (timers (world s))) s.

Definition setInterval (s : Screen) : Screen :=
  bump (set_intervals (intervals (world s) ++ [nextId (world s)]) s).

Definition clearInterval (i : nat) (s : Screen) : Screen :=
  set_intervals (filter (fun j => negb (Nat.eqb j i)) (intervals (world s))) s.

(** The native recorder comes into being when [prepareToRecordAsync] resolves
    and goes when [stopAndUnloadAsync] resolves. *)
Definition native_acquire (rec : nat) (s : Screen) : Screen :=
  set_native (rec :: native (world s)) s.
Definition native_release (rec : nat) (s : Screen) : Screen :=
  set_native (filter (fun r => negb (Nat.eqb r rec)) (native (world s))) s.

(** The closures of the render that shows the store as it is. *)
Definition render_of (s : Screen) : Render :=
  {| r_inputText := inputText (react s);
     r_translatedText := translatedText (react s);
     r_targetLanguage := targetLanguage (react s);
     r_hasAudioPermission := hasAudioPermission (react s) |}.

(** ** Strings *)

(** A string in a boolean position. *)
Definition truthy (s : string) : bool := negb (String.eqb s "").

(** A string of the model holds the UTF-8 bytes of the JavaScript string.
    [String.prototype.trim] removes white space and line terminators.  Of
    one byte: TAB, LF, VT, FF, CR and space. *)
Definition is_white (c : ascii) : bool :=
  let n := nat_of_ascii c in
  (Nat.leb 9 n && Nat.leb n 13) || Nat.eqb n 32.

(** Of two bytes: the no-break space U+00A0, C2 A0. *)
Definition is_white2 (c1 c2 : ascii) : bool :=
  Nat.eqb (nat_of_ascii c1) 194 && Nat.eqb (nat_of_ascii c2) 160.

(** Of three bytes: U+1680 (E1 9A 80); U+2000 to U+200A, the line and
    paragraph separators U+2028 and U+2029, and U+202F (E2 80 80 to 8A, A8,
    A9, AF); U+205F (E2 81 9F); U+3000 (E3 80 80); the byte order mark
    U+FEFF (EF BB BF). *)
Definition is_white3 (c1 c2 c3 : ascii) : bool :=
  let n1 := nat_of_ascii c1 in
  let n2 := nat_of_ascii c2 in
  let n3 := nat_of_ascii c3 in
  (Nat.eqb n1 225 && Nat.eqb n2 154 && Nat.eqb n3 128) ||
  (Nat.eqb n1 226 && Nat.eqb n2 128 &&
   ((Nat.leb 128 n3 && Nat.leb n3 138) || Nat.eqb n3 168 || Nat.eqb n3 169
    || Nat.eqb n3 175)) ||
  (Nat.eqb n1 226 && Nat.eqb n2 129 && Nat.eqb n3 159) ||
  (Nat.eqb n1 227 && Nat.eqb n2 128 && Nat.eqb n3 128) ||
  (Nat.eqb n1 239 && Nat.eqb n2 187 && Nat.eqb n3 191).

(** Take the white space off the start; [w2] and [w3] recognise the ones of
    two and three bytes. *)
Fixpoint strip (w2 : ascii -> ascii -> bool)
    (w3 : ascii -> ascii -> ascii -> bool) (s : string) : string :=
  match s with
  | EmptyString => EmptyString
  | String c1 r1 =>
      if is_white c1 then strip w2 w3 r1 else
      match r1 with
      | String c2 r2 =>
          if w2 c1 c2 then strip w2 w3 r2 else
          match r2 with
          | String c3 r3 => if w3 c1 c2 c3 then strip w2 w3 r3 else s
          | EmptyString => s
          end
      | EmptyString => s
      end
  end.

Definition trim_start (s : string) : string := strip is_white2 is_white3 s.

Fixpoint string_rev_onto (s acc : string) : string :=
  match s with
  | EmptyString => acc
  | String c rest => string_rev_onto rest (String c acc)
  end.

Definition string_rev (s : string) : string := string_rev_onto s EmptyString.

(** The same on a reversed string, where the bytes of a character come last
    byte first. *)
Definition trim_start_reversed (s : string) : string :=
  strip (fun c2 c1 => is_white2 c1 c2) (fun c3 c2 c1 => is_white3 c1 c2 c3) s.

Definition trim (s : string) : string :=
  string_rev (trim_start_reversed (string_rev (trim_start s))).

(** ** The component's functions

    An async function is given piece by piece: the piece that runs when it is
    called, up to its first [await], and one piece per [await], run when the
    awaited promise settles.  A piece returns the store and the suspension
    point it parked at, if any. *)

Definition Step : Type := Screen * option Await.

Definition done (s : Screen) : Step := (s, None).
Definition park (a : Await) (s : Screen) : Step := (s, Some a).

(** [if (isMountedRef.current) { setIsRecording(v); setIsListening(v); }] *)
Definition show_recording (v : bool) (s : Screen) : Screen :=
  if isMountedRef (refs s) then setIsListening v (setIsRecording v s) else s.

(** *** cleanupRecording *)

(** From [isRecordingRef.current = false] to the end, then on to whoever
    awaited the cleanup: [startRecording] goes on to its 300 ms delay. *)
Definition cleanup_tail (k : AfterCleanup) (s : Screen) : Step :=
  let s := show_recording false (set_isRecordingRef false s) in
  match k with
  | ThenReturn => done s
  | ThenStart r => park (AwStartDelay r) (emit (Sleep 300) s)
  end.

(** [recordingRef.current = null] and the rest. *)
Definition cleanup_release (k : AfterCleanup) (s : Screen) : Step :=
  cleanup_tail k (set_recordingRef None s).

Definition cleanupRecording (k : AfterCleanup) (s : Screen) : Step :=
  match recordingRef (refs s) with
  | Some rec => park (AwCleanupStatus k) (emit (GetStatus rec) s)
  | None => cleanup_tail k s
  end.

(** After [await recordingRef.current.getStatusAsync()].  The reference is
    read again for [stopAndUnloadAsync]; on [null] the [TypeError] is caught
    by the inner [catch] like any other error. *)
Definition cleanup_status (k : AfterCleanup) (o : Outcome RecordingStatus)
    (s : Screen) : Step :=
  match o with
  | Resolved st =>
      if status_isRecording st then
        match recordingRef (refs s) with
        | Some rec => park (AwCleanupUnload k rec) (emit (StopAndUnload rec) s)
        | None => cleanup_release k s
        end
      else cleanup_release k s
  | Rejected => cleanup_release k s
  end.

(** After [await recordingRef.current.stopAndUnloadAsync()]. *)
Definition cleanup_unloaded (k : AfterCleanup) (rec : nat) (o : Outcome unit)
    (s : Screen) : Step :=
  match o with
  | Resolved _ => cleanup_release k (native_release rec s)
  | Rejected => cleanup_release k s
  end.

(** *** startRecording *)

Definition startRecording (r : Render) (s : Screen) : Step :=
  if negb (r_hasAudioPermission r) then
    done (emit (Alert "Permission Required" "Microphone permission is required") s)
  else cleanupRecording (ThenStart r) s.

(** After the 300 ms delay: vibrate, then [await Audio.setAudioModeAsync]. *)
Definition start_delayed (r : Render) (s : Screen) : Step :=
  park (AwStartAudioMode r) (emit SetAudioMode (emit Vibrate s)).

(** The outer [catch] of startRecording. *)
Definition start_outer_catch (s : Screen) : Step :=
  done (show_recording false s).

(** The inner [catch (prepareError)]. *)
Definition start_inner_catch (s : Screen) : Step :=
  let s := set_isRecordingRef false (set_recordingRef None s) in
  let s := show_recording false s in
  done (emit (Alert "Recording Error"
                "Failed to start recording. Please try again.") s).

(** After [setAudioModeAsync]: [new Audio.Recording()], then
    [await recording.prepareToRecordAsync(..)]. *)
Definition start_audioMode (r : Render) (o : Outcome unit) (s : Screen) : Step :=
  match o with
  | Resolved _ =>
      let rec := nextId (world s) in
      park (AwStartPrepare r rec) (emit (Prepare rec) (bump s))
  | Rejected => start_outer_catch s
  end.

(** After [prepareToRecordAsync]: [await recording.startAsync()]. *)
Definition start_prepared (r : Render) (rec : nat) (o : Outcome unit)
    (s : Screen) : Step :=
  match o with
  | Resolved _ =>
      park (AwStartStartAsync r rec) (emit (StartAsync rec) (native_acquire rec s))
  | Rejected => start_inner_catch s
  end.

(** After [startAsync]: take the reference, raise the flags, replace the
    auto-stop timer. *)
Definition start_started (r : Render) (rec : nat) (o : Outcome unit)
    (s : Screen) : Step :=
  match o with
  | Resolved _ =>
      let s := set_isRecordingRef true (set_recordingRef (Some rec) s) in
      let s := show_recording true s in
      let s := match recordingTimeoutRef (refs s) with
               | Some t => clearTimeout t s
               | None => s
               end in
      done (set_recordingTimeoutRef (Some (nextId (world s)))
              (setTimeout (CbAutoStop r) s))
  | Rejected => start_inner_catch s
  end.

(** *** processRecordedAudio and simulateSpeechRecognition *)

Definition commonPhrases : list string :=
  [ "How much is the fare?"; "Where are you going?"; "Please stop here";
    "Thank you"; "This is your stop"; "Exact change please";
    "Buckle your seatbelt"; "Next stop coming up"; "Please move to the back";
    "Watch your step"; "Good morning"; "Good afternoon"; "Have a nice day";
    "How long until we arrive?"; "This bus goes to the city";
    "I need to get to the airport"; "What time does the next bus come?";
    "Is this the right bus for downtown?"; "How much luggage can I bring?";
    "Do you accept credit cards?" ].

Definition processRecordedAudio (r : Render) (uri : string) (s : Screen) : Step :=
  if negb (isMountedRef (refs s)) then done s
  else park (AwRecognition r) (emit (Transcribe uri) (setIsTranscribing true s)).

(** After [await simulateSpeechRecognition()]; [i] is
    [Math.floor(Math.random() * commonPhrases.length)]. *)
Definition recognized (r : Render) (i : nat) (s : Screen) : Step :=
  let mounted := isMountedRef (refs s) in
  let heard := match nth_error commonPhrases i with
               | Some text => if truthy text then Some text else None
               | None => None
               end in
  let s := match heard with
           | Some text =>
               if mounted then setTimeout (CbShowDetected r text) (setInputText text s)
               else s
           | None =>
               if mounted then
                 emit (Alert "Speech Recognition"
                         "Could not understand speech. Please try again.") s
               else s
           end in
  done (if mounted then setIsTranscribing false s else s).

(** The message of the dialog: [Detected: ] and the text between double
    quotes. *)
Definition detected (text : string) : string :=
  "Detected: " ++ String "034"%char (text ++ String "034"%char EmptyString).

(** The 100 ms callback: the "Voice Input" dialog with its two buttons. *)
Definition show_detected (r : Render) (text : string) (s : Screen) : Screen :=
  if isMountedRef (refs s) then
    set_dialogs (dialogs (world s) ++ [r])
      (emit (Alert "Voice Input" (detected text)) s)
  else s.

(** *** stopRecording *)

(** The [finally] block. *)
Definition stop_finally (s : Screen) : Screen :=
  show_recording false (set_isRecordingRef false (set_recordingRef None s)).

Definition stopRecording (r : Render) (s : Screen) : Step :=
  let s := emit Vibrate s in
  let s := match recordingTimeoutRef (refs s) with
           | Some t => set_recordingTimeoutRef None (clearTimeout t s)
           | None => s
           end in
  match isRecordingRef (refs s), recordingRef (refs s) with
  | true, Some rec => park (AwStopStatus r) (emit (GetStatus rec) s)
  | _, _ => done (show_recording false s)
  end.

(** After [await recordingRef.current.getStatusAsync()]. *)
Definition stop_status (r : Render) (o : Outcome RecordingStatus)
    (s : Screen) : Step :=
  match o with
  | Resolved st =>
      if canRecord st && status_isRecording st then
        match recordingRef (refs s) with
        | Some rec => park (AwStopUnload r rec) (emit (StopAndUnload rec) s)
        | None => done (stop_finally s)
        end
      else done (stop_finally s)
  | Rejected => done (stop_finally s)
  end.

(** After [await recordingRef.current.stopAndUnloadAsync()]; [uri] is what
    [getURI()] returns.  The reference is read again for [getURI()]: on
    [null] the [TypeError] is caught and [uri] stays [null]. *)
Definition stop_unloaded (r : Render) (rec : nat) (o : Outcome unit)
    (uri : option string) (s : Screen) : Step :=
  match o with
  | Resolved _ =>
      let s := native_release rec s in
      let got := match recordingRef (refs s) with
                 | Some _ => uri
                 | None => None
                 end in
      let s := stop_finally s in
      match got with
      | Some u => if truthy u then processRecordedAudio r u s else done s
      | None => done s
      end
  | Rejected => done (stop_finally s)
  end.

(** *** handleTranslate and speakTranslatedText *)

Definition languageCode (target : string) : string :=
  if String.eqb target "zu" then "zu-ZA"
  else if String.eqb target "xh" then "xh-ZA"
  else if String.eqb target "af" then "af-ZA"
  else if String.eqb target "st" then "st-ZA"
  else "en-US".

Definition speakTranslatedText (r : Render) (s : Screen) : Screen :=
  if truthy (r_translatedText r) && isMountedRef (refs s) then
    emit (Speak (r_translatedText r) (languageCode (r_targetLanguage r))) s
  else s.

Definition handleTranslate (r : Render) (s : Screen) : Step :=
  if negb (truthy (trim (r_inputText r))) then
    done (emit (Alert "Error" "Please enter text to translate") s)
  else if negb (isMountedRef (refs s)) then done s
  else
    park (AwTranslate r)
      (emit (PostTranslate (r_inputText r) "en" (r_targetLanguage r))
         (setLoading true s)).

(** The [finally] block. *)
Definition translate_finally (s : Screen) : Screen :=
  if isMountedRef (refs s) then setLoading false s else s.

(** The [catch] block, then [finally]. *)
Definition translate_catch (s : Screen) : Screen :=
  translate_finally
    (if isMountedRef (refs s) then
       emit (Alert "Translation Error"
               "Failed to translate text. Please check your connection and try again.") s
     else s).

(** After the request: a rejected [fetch], a response that is not [ok] and a
    body that does not parse all end in the [catch]. *)
Definition translated (r : Render) (o : FetchOutcome string) (s : Screen) : Step :=
  match o with
  | Resolved resp =>
      if response_ok resp then
        match body resp with
        | Resolved text =>
            done (translate_finally
                    (if isMountedRef (refs s) then
                       setTimeout (CbSpeak r) (setTranslatedText text s)
                     else s))
        | Rejected => done (translate_catch s)
        end
      else done (translate_catch s)
  | Rejected => done (translate_catch s)
  end.

(** *** handleQuickPhrase, handleVoiceTranslate *)

Definition handleQuickPhrase (r : Render) (phrase : string) (s : Screen) : Screen :=
  if negb (isMountedRef (refs s)) then s
  else setTimeout (CbTranslate r) (setInputText phrase s).

Definition handleVoiceTranslate (r : Render) (s : Screen) : Step :=
  if isRecordingRef (refs s) then stopRecording r s else startRecording r s.

(** *** loadLanguages *)

Definition defaultLanguages : list Language :=
  [ mkLanguage 1 "zu" "isiZulu"; mkLanguage 2 "xh" "isiXhosa";
    mkLanguage 3 "af" "Afrikaans"; mkLanguage 4 "st" "Sesotho" ].

Definition loadLanguages (s : Screen) : Step :=
  park AwLanguages (emit GetLanguages s).

(** The [catch] block. *)
Definition languages_fallback (s : Screen) : Screen :=
  setLanguages defaultLanguages
    (emit (Alert "Error" "Failed to load languages. Using default languages.") s).

(** After the request; the body is [data.languages], [None] when the field
    is missing, and [data.languages || []] is stored. *)
Definition languages_loaded (o : FetchOutcome (option (list Language)))
    (s : Screen) : Step :=
  match o with
  | Resolved resp =>
      if response_ok resp then
        match body resp with
        | Resolved data =>
            done (setLanguages (match data with Some l => l | None => [] end) s)
        | Rejected => done (languages_fallback s)
        end
      else done (languages_fallback s)
  | Rejected => done (languages_fallback s)
  end.

(** *** setupAudio *)

Definition setupAudio (s : Screen) : Step :=
  park AwPermission (emit RequestPermissions s).

Definition setup_failed (s : Screen) : Screen :=
  emit (Alert "Audio Error" "Failed to setup audio recording")
    (setHasAudioPermission false s).

(** After [await Audio.requestPermissionsAsync()]. *)
Definition permission_answered (o : Outcome string) (s : Screen) : Step :=
  match o with
  | Resolved status =>
      if String.eqb status "granted" then park AwAudioSetup (emit SetAudioMode s)
      else
        done (setHasAudioPermission false
                (emit (Alert "Permission Required"
                         "Microphone permission is required for voice translation") s))
  | Rejected => done (setup_failed s)
  end.

(** After [await Audio.setAudioModeAsync(..)]. *)
Definition audio_setup (o : Outcome unit) (s : Screen) : Step :=
  match o with
  | Resolved _ => done (setHasAudioPermission true s)
  | Rejected => done (setup_failed s)
  end.

(** ** The life of the component *)

(** The store that [useState] and [useRef] are initialised with. *)
Definition initial : Screen :=
  {| react := mkReact "" "" "zu" false false false [] 0 false false;
     refs := mkRefs None None None false true;
     world := mkWorld [] [] 1 [] [] [] [] |}.

Definition clear_duration_interval (s : Screen) : Screen :=
  match durationIntervalRef (refs s) with
  | Some i => clearInterval i s
  | None => s
  end.

(** The body of the effect on [[isRecording]]. *)
Definition duration_effect (s : Screen) : Screen :=
  if isRecording (react s) then
    set_durationIntervalRef (Some (nextId (world s))) (setInterval s)
  else clear_duration_interval s.

(** After an event the component is rendered again; when [isRecording] has
    changed, the cleanup of the effect runs, then its body.  An unmounted
    component is not rendered. *)
Definition commit (before s : Screen) : Screen :=
  if negb (isMountedRef (refs s)) then s
  else if Bool.eqb (isRecording (react before)) (isRecording (react s)) then s
  else duration_effect (clear_duration_interval s).

(** The first effect: [loadLanguages(); setupAudio();], both left running. *)
Definition mount (s : Screen) : Screen :=
  let s := set_isMountedRef true s in
  let s := fst (loadLanguages s) in
  let s := fst (setupAudio s) in
  set_tasks (tasks (world s) ++ [AwLanguages; AwPermission]) s.

(** The cleanups of the two effects, in the order they are declared. *)
Definition unmount (s : Screen) : Step :=
  let s := set_isMountedRef false s in
  let '(s, pending) := cleanupRecording ThenReturn s in
  let s := match recordingTimeoutRef (refs s) with
           | Some t => clearTimeout t s
           | None => s
           end in
  let s := clear_duration_interval s in
  let s := emit SpeechStop s in
  (clear_duration_interval s, pending).

(** What an awaited operation answers. *)
Inductive Answer :=
| AnsUnit (o : Outcome unit)
| AnsStatus (o : Outcome RecordingStatus)
| AnsUnloaded (o : Outcome unit) (uri : option string)
| AnsPhrase (i : nat)
| AnsTranslation (o : FetchOutcome string)
| AnsCatalog (o : FetchOutcome (option (list Language)))
| AnsPermission (o : Outcome string).

(** Resume a parked function with an answer; [None] when the answer is not
    one its suspension point can get. *)
Definition resume (a : Await) (ans : Answer) (s : Screen) : option Step :=
  match a, ans with
  | AwCleanupStatus k, AnsStatus o => Some (cleanup_status k o s)
  | AwCleanupUnload k rec, AnsUnit o => Some (cleanup_unloaded k rec o s)
  | AwStartDelay r, AnsUnit _ => Some (start_delayed r s)
  | AwStartAudioMode r, AnsUnit o => Some (start_audioMode r o s)
  | AwStartPrepare r rec, AnsUnit o => Some (start_prepared r rec o s)
  | AwStartStartAsync r rec, AnsUnit o => Some (start_started r rec o s)
  | AwStopStatus r, AnsStatus o => Some (stop_status r o s)
  | AwStopUnload r rec, AnsUnloaded o uri => Some (stop_unloaded r rec o uri s)
  | AwRecognition r, AnsPhrase i => Some (recognized r i s)
  | AwTranslate r, AnsTranslation o => Some (translated r o s)
  | AwLanguages, AnsCatalog o => Some (languages_loaded o s)
  | AwPermission, AnsPermission o => Some (permission_answered o s)
  | AwAudioSetup, AnsUnit o => Some (audio_setup o s)
  | _, _ => None
  end.

Definition run_callback (cb : Callback) (s : Screen) : Step :=
  match cb with
  | CbAutoStop r => if isRecordingRef (refs s) then stopRecording r s else done s
  | CbShowDetected r text => done (show_detected r text s)
  | CbTranslate r => handleTranslate r s
  | CbSpeak r => done (speakTranslatedText r s)
  end.

Definition drop_nth {A} (i : nat) (l : list A) : list A :=
  firstn i l ++ skipn (S i) l.

(** Everything that can happen to the screen. *)
Inductive Event :=
| EvStart                        (* a call of startRecording() *)
| EvStop                         (* a call of stopRecording() *)
| EvPressVoice                   (* the record button: handleVoiceTranslate *)
| EvPressTranslate               (* the "Translate Text" button *)
| EvQuickPhrase (phrase : string)
| EvChangeText (text : string)   (* onChangeText={setInputText} *)
| EvSelectLanguage (code : string)
| EvSpeakAgain
| EvStopSpeaking
| EvDialogTranslate (i : nat)    (* "Translate" in the i-th open dialog *)
| EvDialogCancel (i : nat)
| EvTimer (t : nat)              (* timeout [t] expires *)
| EvTick (i : nat)               (* interval [i] ticks *)
| EvResume (i : nat) (ans : Answer)  (* the i-th parked function goes on *)
| EvUnmount.

(** What the render of the store offers: the [disabled] and [editable]
    props, the result card that is only rendered with a translation, the
    language chips. *)
Definition voice_button_enabled (s : Screen) : bool :=
  negb (loading (react s) || negb (hasAudioPermission (react s))
        || isTranscribing (react s)).

Definition translate_button_enabled (s : Screen) : bool :=
  negb (loading (react s) || negb (truthy (trim (inputText (react s))))
        || isTranscribing (react s)).

Definition quick_phrases_enabled (s : Screen) : bool :=
  negb (loading (react s) || isTranscribing (react s)).

Definition input_editable (s : Screen) : bool :=
  negb (loading (react s)) && negb (isTranscribing (react s)).

Definition result_card_shown (s : Screen) : bool :=
  truthy (translatedText (react s)).

Definition language_chip_shown (code : string) (s : Screen) : bool :=
  existsb (fun l => String.eqb (lang_code l) code)
    (filter (fun l => negb (String.eqb (lang_code l) "en")) (languages (react s))).

(** A gesture reaches its handler when the screen is mounted and the
    control is there and enabled. *)
Definition gesture (enabled : bool) (h : Screen -> Step) (s : Screen) : Step :=
  if isMountedRef (refs s) && enabled then h s else done s.

Definition handle (e : Event) (s : Screen) : Step :=
  match e with
  | EvStart => startRecording (render_of s) s
  | EvStop => stopRecording (render_of s) s
  | EvPressVoice =>
      gesture (voice_button_enabled s) (handleVoiceTranslate (render_of s)) s
  | EvPressTranslate =>
      gesture (translate_button_enabled s) (handleTranslate (render_of s)) s
  | EvQuickPhrase phrase =>
      gesture (quick_phrases_enabled s)
        (fun s => done (handleQuickPhrase (render_of s) phrase s)) s
  | EvChangeText text =>
      gesture (input_editable s) (fun s => done (setInputText text s)) s
  | EvSelectLanguage code =>
      gesture (language_chip_shown code s)
        (fun s => done (setTargetLanguage code s)) s
  | EvSpeakAgain =>
      gesture (result_card_shown s)
        (fun s => done (speakTranslatedText (render_of s) s)) s
  | EvStopSpeaking =>
      gesture (result_card_shown s) (fun s => done (emit SpeechStop s)) s
  | EvDialogTranslate i =>
      match nth_error (dialogs (world s)) i with
      | Some r =>
          done (setTimeout (CbTranslate r)
                  (set_dialogs (drop_nth i (dialogs (world s))) s))
      | None => done s
      end
  | EvDialogCancel i => done (set_dialogs (drop_nth i (dialogs (world s))) s)
  | EvTimer t =>
      match find (fun p => Nat.eqb (fst p) t) (timers (world s)) with
      | Some (_, cb) => run_callback cb (clearTimeout t s)
      | None => done s
      end
  | EvTick i =>
      if existsb (Nat.eqb i) (intervals (world s)) then
        done (setRecordingDuration (fun prev => prev + 1) s)
      else done s
  | EvResume i ans =>
      match nth_error (tasks (world s)) i with
      | Some a =>
          match resume a ans (set_tasks (drop_nth i (tasks (world s))) s) with
          | Some st => st
          | None => done s
          end
      | None => done s
      end
  | EvUnmount => unmount s
  end.

Definition step (e : Event) (s : Screen) : Screen :=
  let '(s', pending) := handle e s in
  commit s
    (match pending with
     | Some a => set_tasks (tasks (world s') ++ [a]) s'
     | None => s'
     end).

Definition run (es : list Event) (s : Screen) : Screen :=
  fold_left (fun s e => step e s) es s.

(** ** Calls that run to their end

    One call of [start()] or [stop()] with nothing else in between: the call
    is made, and the function is resumed at each [await] with the answer an
    [Oracle] holds for it, until it has returned. *)

Record Oracle := mkOracle
  { o_status : Outcome RecordingStatus;
    o_unload : Outcome unit;
    o_uri : option string;
    o_audioMode : Outcome unit;
    o_prepare : Outcome unit;
    o_startAsync : Outcome unit;
    o_phrase : nat;
    o_translation : FetchOutcome string;
    o_catalog : FetchOutcome (option (list Language));
    o_permission : Outcome string }.

Definition answer_for (o : Oracle) (a : Await) : Answer :=
  match a with
  | AwCleanupStatus _ | AwStopStatus _ => AnsStatus (o_status o)
  | AwCleanupUnload _ _ => AnsUnit (o_unload o)
  | AwStopUnload _ _ => AnsUnloaded (o_unload o) (o_uri o)
  | AwStartDelay _ => AnsUnit (Resolved tt)
  | AwStartAudioMode _ | AwAudioSetup => AnsUnit (o_audioMode o)
  | AwStartPrepare _ _ => AnsUnit (o_prepare o)
  | AwStartStartAsync _ _ => AnsUnit (o_startAsync o)
  | AwRecognition _ => AnsPhrase (o_phrase o)
  | AwTranslate _ => AnsTranslation (o_translation o)
  | AwLanguages => AnsCatalog (o_catalog o)
  | AwPermission => AnsPermission (o_permission o)
  end.

(** The stores after each resumption, until nothing is parked. *)
Fixpoint settle (o : Oracle) (fuel : nat) (s : Screen) : list Screen :=
  match fuel with
  | 0 => []
  | S fuel' =>
      match tasks (world s) with
      | [] => []
      | a :: _ =>
          let s' := step (EvResume 0 (answer_for o a)) s in
          s' :: settle o fuel' s'
      end
  end.

Inductive Call := Start | Stop.

Definition call_event (c : Call) : Event :=
  match c with Start => EvStart | Stop => EvStop end.

(** Every store a call goes through.  A call has at most six suspension
    points (status, unload, delay, audio mode, prepare, start). *)
Definition call_trace (c : Call) (o : Oracle) (s : Screen) : list Screen :=
  let s1 := step (call_event c) s in
  s1 :: settle o 8 s1.

Definition call (c : Call) (o : Oracle) (s : Screen) : Screen :=
  last (call_trace c o s) s.

Fixpoint calls_trace (cs : list (Call * Oracle)) (s : Screen) : list Screen :=
  match cs with
  | [] => []
  | (c, o) :: rest => call_trace c o s ++ calls_trace rest (call c o s)
  end.

Fixpoint calls (cs : list (Call * Oracle)) (s : Screen) : Screen :=
  match cs with
  | [] => s
  | (c, o) :: rest => calls rest (call c o s)
  end.

(** ** Notions used in the statements *)

(** The recorder the controller holds a reference to. *)
Definition held (s : Screen) : list nat :=
  match recordingRef (refs s) with
  | Some rec => [rec]
  | None => []
  end.

(** Between calls: nothing is parked, and the native recorders that exist
    are exactly the one the controller refers to. *)
Definition owned (s : Screen) : Prop :=
  tasks (world s) = [] /\ native (world s) = held s.

Definition one_recorder (s : Screen) : bool :=
  Nat.leb (List.length (native (world s))) 1.

(** At most one native recorder exists in every store that the calls [cs],
    one after the other, go through. *)
Definition at_most_one_recorder (cs : list (Call * Oracle)) (s : Screen) : bool :=
  forallb one_recorder (calls_trace cs s).

(** The native calls made on a recorder that exists go well: the status
    query resolves and reports it as recording, [stopAndUnloadAsync]
    resolves, and [startAsync] resolves once [prepareToRecordAsync] has. *)
Definition nominal (o : Oracle) : bool :=
  match o_status o, o_unload o with
  | Resolved st, Resolved _ =>
      canRecord st && status_isRecording st &&
      match o_prepare o, o_startAsync o with
      | Resolved _, Rejected => false
      | _, _ => true
      end
  | _, _ => false
  end.

(** The reference and the flag agree. *)
Definition in_step (s : Screen) : Prop :=
  match recordingRef (refs s) with
  | Some _ => isRecordingRef (refs s) = true
  | None => isRecordingRef (refs s) = false
  end.

(** The capture controller at rest. *)
Definition idle (s : Screen) : Prop :=
  recordingRef (refs s) = None /\
  isRecordingRef (refs s) = false /\
  recordingTimeoutRef (refs s) = None /\
  isRecording (react s) = false /\
  isListening (react s) = false /\
  tasks (world s) = [].

Definition no_live_session (s : Screen) : Prop :=
  recordingRef (refs s) = None \/ isRecordingRef (refs s) = false.

(** A request that did not bring a usable answer: the [fetch] was rejected
    or the response is not [ok]. *)
Definition request_failed {A} (o : FetchOutcome A) : bool :=
  match o with
  | Resolved resp => negb (response_ok resp)
  | Rejected => true
  end.

Definition duration (s : Screen) : nat := recordingDuration (react s).

(** What an event adds to the duration read-out. *)
Definition ticks (e : Event) (s : Screen) : nat :=
  match e with
  | EvTick i => if existsb (Nat.eqb i) (intervals (world s)) then 1 else 0
  | _ => 0
  end.

(** How often [stopAndUnloadAsync] was called. *)
Definition unload_calls (l : list Effect) : nat :=
  List.length (filter (fun e => match e with StopAndUnload _ => true | _ => false end) l).

Definition spoken (l : list Effect) : list Effect :=
  filter (fun e => match e with Speak _ _ => true | _ => false end) l.

Definition posted (l : list Effect) : list Effect :=
  filter (fun e => match e with PostTranslate _ _ _ => true | _ => false end) l.

(** *** Situations *)

Definition ok : Outcome unit := Resolved tt.

Definition recording_now : Outcome RecordingStatus := Resolved (mkStatus true true).

Definition in_zulu (text : string) : FetchOutcome string :=
  Resolved (mkResponse 200 (Resolved text)).

(** Everything answers as hoped. *)
Definition all_well : Oracle :=
  {| o_status := recording_now;
     o_unload := ok;
     o_uri := Some "file:///recording.m4a";
     o_audioMode := ok;
     o_prepare := ok;
     o_startAsync := ok;
     o_phrase := 3;
     o_translation := in_zulu "Ngiyabonga";
     o_catalog := Resolved (mkResponse 200 (Resolved (Some defaultLanguages)));
     o_permission := Resolved "granted" |}.

(** The status query finds the recorder prepared but not recording. *)
Definition not_recording_yet : Oracle :=
  {| o_status := Resolved (mkStatus true false);
     o_unload := ok;
     o_uri := Some "file:///recording.m4a";
     o_audioMode := ok;
     o_prepare := ok;
     o_startAsync := ok;
     o_phrase := 3;
     o_translation := in_zulu "Ngiyabonga";
     o_catalog := Resolved (mkResponse 200 (Resolved (Some defaultLanguages)));
     o_permission := Resolved "granted" |}.

(** [prepareToRecordAsync] resolves and [startAsync] is rejected. *)
Definition start_rejected : Oracle :=
  {| o_status := recording_now;
     o_unload := ok;
     o_uri := Some "file:///recording.m4a";
     o_audioMode := ok;
     o_prepare := ok;
     o_startAsync := Rejected;
     o_phrase := 3;
     o_translation := in_zulu "Ngiyabonga";
     o_catalog := Resolved (mkResponse 200 (Resolved (Some defaultLanguages)));
     o_permission := Resolved "granted" |}.

(** The screen once mounted, with the catalog loaded and the microphone
    permission granted. *)
Definition ready : Screen :=
  run [ EvResume 0 (AnsCatalog (o_catalog all_well));
        EvResume 0 (AnsPermission (o_permission all_well));
        EvResume 0 (AnsUnit ok) ]
      (mount initial).

(** The record button is pressed and the recording starts: the delay, the
    audio mode, [prepareToRecordAsync] and [startAsync] in turn. *)
Definition start_by_button : list Event :=
  [ EvPressVoice; EvResume 0 (AnsUnit ok); EvResume 0 (AnsUnit ok);
    EvResume 0 (AnsUnit ok); EvResume 0 (AnsUnit ok) ].

(** The auto-stop timer (id 2) expires; while its [stopRecording] waits for
    the status, the record button is pressed.  Then the two status queries
    and the two [stopAndUnloadAsync] calls are answered. *)
Definition timer_then_button : list Event :=
  [ EvTimer 2; EvPressVoice;
    EvResume 0 (AnsStatus recording_now); EvResume 0 (AnsStatus recording_now);
    EvResume 0 (AnsUnloaded ok (Some "file:///recording.m4a"));
    EvResume 0 (AnsUnloaded ok (Some "file:///recording.m4a")) ].

(** The button first; the timer has nothing left to do. *)
Definition button_then_timer : list Event :=
  [ EvPressVoice; EvTimer 2;
    EvResume 0 (AnsStatus recording_now);
    EvResume 0 (AnsUnloaded ok (Some "file:///recording.m4a")) ].

(** The record button is pressed again and the recording stops: the status,
    [stopAndUnloadAsync], then the recognition of the 4th phrase. *)
Definition stop_by_button : list Event :=
  [ EvPressVoice; EvResume 0 (AnsStatus recording_now);
    EvResume 0 (AnsUnloaded ok (Some "file:///recording.m4a"));
    EvResume 0 (AnsPhrase 3) ].

(** "Thank you" has been typed and the translation asked for. *)
Definition translation_waiting : Screen :=
  run [EvChangeText "Thank you"; EvPressTranslate] ready.

(** The translation service answers with HTTP 500. *)
Definition server_error : FetchOutcome string :=
  Resolved (mkResponse 500 Rejected).

(** *** Tactics *)

Ltac break_match :=
  match goal with
  | |- context [match ?x with _ => _ end] => is_var x; destruct x
  | |- context [if ?x then _ else _] => is_var x; destruct x
  | |- context [match ?x with _ => _ end] => destruct x eqn:?
  end.

Ltac open_pieces :=
  cbv [startRecording stopRecording handleVoiceTranslate handleTranslate
       handleQuickPhrase run_callback resume
       cleanupRecording cleanup_status cleanup_unloaded cleanup_release cleanup_tail
       start_delayed start_audioMode start_prepared start_started
       start_inner_catch start_outer_catch
       stop_status stop_unloaded stop_finally processRecordedAudio recognized
       show_detected translated translate_catch translate_finally
       speakTranslatedText languages_loaded languages_fallback loadLanguages
       setupAudio permission_answered audio_setup setup_failed
       show_recording clear_duration_interval duration_effect commit done park
       gesture].

Ltac open_screen s :=
  let it := fresh "inputText0" in
  let tx := fresh "translatedText0" in
  let tl := fresh "targetLanguage0" in
  let ld := fresh "loading0" in
  let ir := fresh "isRecording0" in
  let il := fresh "isListening0" in
  let lg := fresh "languages0" in
  let rd := fresh "recordingDuration0" in
  let hp := fresh "hasAudioPermission0" in
  let tr := fresh "isTranscribing0" in
  let rr := fresh "recordingRef0" in
  let rt := fresh "recordingTimeoutRef0" in
  let di := fresh "durationIntervalRef0" in
  let irr := fresh "isRecordingRef0" in
  let im := fresh "isMountedRef0" in
  let tm := fresh "timers0" in
  let iv := fresh "intervals0" in
  let ni := fresh "nextId0" in
  let nv := fresh "native0" in
  let ts := fresh "tasks0" in
  let dg := fresh "dialogs0" in
  let lo := fresh "log0" in
  destruct s as [[it tx tl ld ir il lg rd hp tr] [rr rt di irr im]
                 [tm iv ni nv ts dg lo]].

(** Split a phrase index into 0 .. n-1 and the rest. *)
Ltac split_index n i :=
  match n with
  | 0 => idtac
  | S ?m => destruct i as [|i]; [ | split_index m i ]
  end.

(** ** The rest of the screen *)

(** A non-negative integer in a template literal or under [toString()]. *)
Definition decimal (n : nat) : string :=
  NilEmpty.string_of_uint (Nat.to_uint n).

(** The number that a string of decimal digits stands for. *)
Definition read_decimal (s : string) : nat :=
  match NilEmpty.uint_of_string s with
  | Some d => Nat.of_uint d
  | None => 0
  end.

Fixpoint repeat_char (c : ascii) (n : nat) : string :=
  match n with
  | 0 => EmptyString
  | S m => String c (repeat_char c m)
  end.

(** [s.padStart(target, c)] with a one-character pad. *)
Definition padStart (target : nat) (c : ascii) (s : string) : string :=
  repeat_char c (target - String.length s) ++ s.

(** [formatTime]: the duration read-out of the record button. *)
Definition formatTime (seconds : nat) : string :=
  decimal (seconds / 60) ++ ":" ++ padStart 2 "0" (decimal (seconds mod 60)).

(** [getLanguageName]: the name of the first catalog entry with the code,
    or the code itself. *)
Definition getLanguageName (code : string) (s : Screen) : string :=
  match find (fun l => String.eqb (lang_code l) code) (languages (react s)) with
  | Some lang => lang_name lang
  | None => code
  end.

(** ** More notions used in the statements *)

(** Nothing but white space: a run of the characters that [trim] removes. *)
Fixpoint blank (s : string) : bool :=
  match s with
  | EmptyString => true
  | String c1 r1 =>
      if is_white c1 then blank r1 else
      match r1 with
      | String c2 r2 =>
          if is_white2 c1 c2 then blank r2 else
          match r2 with
          | String c3 r3 => is_white3 c1 c2 c3 && blank r3
          | EmptyString => false
          end
      | EmptyString => false
      end
  end.

Definition quiet_task (a : Await) : bool :=
  match a with
  | AwTranslate _ | AwLanguages => true
  | _ => false
  end.

Definition quiet_timer (p : nat * Callback) : bool :=
  match snd p with
  | CbTranslate _ | CbSpeak _ => true
  | _ => false
  end.

(** The calls made on a recorder. *)
Definition recorder_calls (l : list Effect) : list Effect :=
  filter (fun e => match e with
                   | Prepare _ | StartAsync _ | GetStatus _ | StopAndUnload _ => true
                   | _ => false
                   end) l.

(** The permission is not granted and nothing that could grant it or that
    belongs to a recording is under way. *)
Definition microphone_denied (s : Screen) : Prop :=
  hasAudioPermission (react s) = false /\
  recorder_calls (log (world s)) = [] /\
  native (world s) = [] /\
  recordingRef (refs s) = None /\
  isRecordingRef (refs s) = false /\
  forallb quiet_task (tasks (world s)) = true /\
  forallb quiet_timer (timers (world s)) = true.

(** The one-second interval runs exactly on a mounted screen that shows
    the recording, and it is the one [durationIntervalRef] holds. *)
Definition interval_in_step (s : Screen) : Prop :=
  if isMountedRef (refs s) && isRecording (react s) then
    exists i, intervals (world s) = [i] /\ durationIntervalRef (refs s) = Some i
  else intervals (world s) = [].

(** The ids of the armed timers are ids that were handed out. *)
Definition timers_fresh (s : Screen) : bool :=
  forallb (fun p => Nat.ltb (fst p) (nextId (world s))) (timers (world s)).

(** Mounted, allowed to record, and nothing under way. *)
Definition at_rest (s : Screen) : Prop :=
  tasks (world s) = [] /\ native (world s) = [] /\
  recordingRef (refs s) = None /\ isRecordingRef (refs s) = false /\
  isMountedRef (refs s) = true /\ hasAudioPermission (react s) = true /\
  loading (react s) = false /\ isTranscribing (react s) = false.

(** The audio mode, [prepareToRecordAsync] and [startAsync] all resolve. *)
Definition starts_well (o : Oracle) : bool :=
  match o_audioMode o, o_prepare o, o_startAsync o with
  | Resolved _, Resolved _, Resolved _ => true
  | _, _, _ => false
  end.

(** The record button is pressed and what it started runs to its end. *)
Definition pressed (o : Oracle) (s : Screen) : Screen :=
  last (settle o 8 (step EvPressVoice s)) (step EvPressVoice s).

(** The record button is pressed twice in a row, then everything that was
    started runs to its end, the function parked first going first. *)
Definition pressed_twice (o : Oracle) (s : Screen) : Screen :=
  last (settle o 16 (run [EvPressVoice; EvPressVoice] s))
       (run [EvPressVoice; EvPressVoice] s).

(** The screen is unmounted and the cleanup it started runs to its end. *)
Definition unmounted (o : Oracle) (s : Screen) : Screen :=
  last (settle o 8 (step EvUnmount s)) (step EvUnmount s).

Definition no_space (w : string) : bool :=
  forallb (fun c => negb (Ascii.eqb c " ")) (list_ascii_of_string w).

(** The characters are ASCII ones, where one character is one UTF-16 unit
    and [toUpperCase] keeps the length. *)
Definition plain_ascii (name : string) : bool :=
  forallb (fun c => Nat.ltb (nat_of_ascii c) 128) (list_ascii_of_string name).

(** *** The recording device

    Modelled from the spec: the recording device is outside the
    repository.  It serves one recorder at a time, and opening a second one is
    an error (the "device-level double-open errors" of the spec, its
    [DeviceBusy]): it lets [prepareToRecordAsync] resolve only while no
    recorder exists.  Every other answer is left open. *)
Definition device_allows (e : Event) (s : Screen) : bool :=
  match e with
  | EvResume i (AnsUnit (Resolved _)) =>
      match nth_error (tasks (world s)) i with
      | Some (AwStartPrepare _ _) =>
          match native (world s) with
          | [] => true
          | _ :: _ => false
          end
      | _ => true
      end
  | _ => true
  end.

(** Every answer among the events [es], from the store [s] on, is one that
    the device gives. *)
Fixpoint device_respected (es : list Event) (s : Screen) : bool :=
  match es with
  | [] => true
  | e :: rest => device_allows e s && device_respected rest (step e s)
  end.

(** The stores after each of the events. *)
Fixpoint trace (es : list Event) (s : Screen) : list Screen :=
  match es with
  | [] => []
  | e :: rest => step e s :: trace rest (step e s)
  end.

(** The native calls that release the recorder the controller holds. *)
Definition released (s : Screen) : list Effect :=
  match recordingRef (refs s) with
  | Some rec => [GetStatus rec; StopAndUnload rec]
  | None => []
  end.

(** *** More situations *)

(** [start()], then a [stop()] that finds the recorder not recording and
    drops it without unloading it, then [start()] again: the device refuses
    to prepare the second recorder. *)
Definition busy_device : list Event :=
  [ EvStart; EvResume 0 (AnsUnit ok); EvResume 0 (AnsUnit ok);
    EvResume 0 (AnsUnit ok); EvResume 0 (AnsUnit ok);
    EvStop; EvResume 0 (AnsStatus (Resolved (mkStatus true false)));
    EvStart; EvResume 0 (AnsUnit ok); EvResume 0 (AnsUnit ok);
    EvResume 0 (AnsUnit Rejected) ].

(** [start()] and at once [stop()], while the start waits for its delay;
    then the delay, the audio mode, [prepareToRecordAsync] and [startAsync]
    of the start. *)
Definition stop_while_starting : list Event :=
  [ EvStart; EvStop; EvResume 0 (AnsUnit ok); EvResume 0 (AnsUnit ok);
    EvResume 0 (AnsUnit ok); EvResume 0 (AnsUnit ok) ].

(** The no-break space U+00A0. *)
Definition no_break_space : string :=
  String "194"%char (String "160"%char EmptyString).

(** The screen once mounted, with the microphone permission refused. *)
Definition denied : Screen :=
  run [ EvResume 0 (AnsCatalog (o_catalog all_well));
        EvResume 0 (AnsPermission (Resolved "denied")) ]
      (mount initial).

(** A recording was made and stopped by the button; the recognition is
    still out. *)
Definition recognition_waiting : Screen :=
  run (start_by_button ++
       [ EvPressVoice; EvResume 0 (AnsStatus recording_now);
         EvResume 0 (AnsUnloaded ok (Some "file:///recording.m4a")) ])%list
      ready.

(** ** The App component *)

Module App.

(** The user object of the login response. *)
Record User := mkUser
  { user_id : nat; full_name : string; role : string; language_pref : string }.

(** What a request comes back with: a rejected [fetch] with the error's
    message, or a response with its status and what [response.json()] gives
    (the data, or the message of the error it throws). *)
Inductive Reply (A : Type) : Type :=
| NetworkError (message : string)
| Http (status : nat) (body : A + string).
Arguments NetworkError {A}.
Arguments Http {A}.

Definition status_ok (status : nat) : bool :=
  Nat.leb 200 status && Nat.leb status 299.

(** [makeRequest]: the parsed body, or the message of the error thrown. *)
Definition makeRequest {A} (reply : Reply A) : A + string :=
  match reply with
  | NetworkError message => inr message
  | Http status body =>
      if status_ok status then body
      else inr ("HTTP error! status: " ++ decimal status)
  end.

(** [error.message || fallback] *)
Definition message_or (message fallback : string) : string :=
  if truthy message then message else fallback.

Inductive Effect :=
| Alert (title message : string)
| GetRoot
| PostLogin (email password : string)
| PostRegister (full_name email password role : string).

Inductive Await := AwCheck | AwLogin | AwRegister.

(** The [useState] cells of [App], the requests that are out and what was
    asked of the outside. *)
Record State := mkState
  { currentScreen : string;
    user : option User;
    email : string;
    password : string;
    fullName : string;
    loading : bool;
    apiStatus : string;
    tasks : list Await;
    log : list Effect }.

Definition setCurrentScreen (v : string) (s : State) : State :=
  mkState v (user s) (email s) (password s) (fullName s) (loading s)
    (apiStatus s) (tasks s) (log s).
Definition setUser (v : option User) (s : State) : State :=
  mkState (currentScreen s) v (email s) (password s) (fullName s) (loading s)
    (apiStatus s) (tasks s) (log s).
Definition setEmail (v : string) (s : State) : State :=
  mkState (currentScreen s) (user s) v (password s) (fullName s) (loading s)
    (apiStatus s) (tasks s) (log s).
Definition setPassword (v : string) (s : State) : State :=
  mkState (currentScreen s) (user s) (email s) v (fullName s) (loading s)
    (apiStatus s) (tasks s) (log s).
Definition setFullName (v : string) (s : State) : State :=
  mkState (currentScreen s) (user s) (email s) (password s) v (loading s)
    (apiStatus s) (tasks s) (log s).
Definition setLoading (v : bool) (s : State) : State :=
  mkState (currentScreen s) (user s) (email s) (password s) (fullName s) v
    (apiStatus s) (tasks s) (log s).
Definition setApiStatus (v : string) (s : State) : State :=
  mkState (currentScreen s) (user s) (email s) (password s) (fullName s)
    (loading s) v (tasks s) (log s).
Definition set_tasks (v : list Await) (s : State) : State :=
  mkState (currentScreen s) (user s) (email s) (password s) (fullName s)
    (loading s) (apiStatus s) v (log s).
Definition emit (e : Effect) (s : State) : State :=
  mkState (currentScreen s) (user s) (email s) (password s) (fullName s)
    (loading s) (apiStatus s) (tasks s) (log s ++ [e]).

Definition Step : Type := State * option Await.

(** [checkAPI], up to its [await]. *)
Definition checkAPI (s : State) : Step :=
  (emit GetRoot (setApiStatus "checking" s), Some AwCheck).

Definition check_answered (reply : Reply unit) (s : State) : State :=
  match makeRequest reply with
  | inl _ => setApiStatus "connected" s
  | inr _ => setApiStatus "failed" s
  end.

(** [handleLogin], up to its [await]. *)
Definition handleLogin (s : State) : Step :=
  if negb (truthy (email s)) || negb (truthy (password s)) then
    (emit (Alert "Error" "Please enter both email and password") s, None)
  else
    (emit (PostLogin (email s) (password s)) (setLoading true s), Some AwLogin).

(** After the login request; the body is [data.user], [None] when the field
    is missing. *)
Definition login_answered (reply : Reply (option User)) (s : State) : State :=
  setLoading false
    match makeRequest reply with
    | inl data_user => setCurrentScreen "translation" (setUser data_user s)
    | inr message =>
        emit (Alert "Login Failed" (message_or message "Login failed")) s
    end.

(** [handleRegister], up to its [await]. *)
Definition handleRegister (s : State) : Step :=
  if negb (truthy (fullName s)) || negb (truthy (email s))
     || negb (truthy (password s)) then
    (emit (Alert "Error" "Please fill all fields") s, None)
  else
    (emit (PostRegister (fullName s) (email s) (password s) "driver")
       (setLoading true s),
     Some AwRegister).

Definition register_answered (reply : Reply unit) (s : State) : State :=
  setLoading false
    match makeRequest reply with
    | inl _ =>
        setFullName ""
          (setCurrentScreen "login"
             (emit (Alert "Success" "Registration successful! Please login.") s))
    | inr message =>
        emit (Alert "Registration Failed"
                (message_or message "Registration failed")) s
    end.

Definition handleLogout (s : State) : State :=
  setCurrentScreen "login"
    (setFullName "" (setPassword "" (setEmail "" (setUser None s)))).

(** What [getCurrentScreen] renders; a name it does not know renders the
    login form. *)
Inductive Shown := LoginForm | RegisterForm | Translation | Profile.

Definition getCurrentScreen (s : State) : Shown :=
  if String.eqb (currentScreen s) "login" then LoginForm
  else if String.eqb (currentScreen s) "register" then RegisterForm
  else if String.eqb (currentScreen s) "translation" then Translation
  else if String.eqb (currentScreen s) "profile" then Profile
  else LoginForm.

(** [renderStatusIndicator] returns [null] on the translation screen. *)
Definition status_indicator_shown (s : State) : bool :=
  negb (String.eqb (currentScreen s) "translation").

Definition initial : State :=
  mkState "login" None "" "" "" false "checking" [] [].

(** The mount effect calls [checkAPI()]. *)
Definition mounted : State :=
  let '(s, _) := checkAPI initial in set_tasks [AwCheck] s.

Inductive Answer :=
| AnsCheck (reply : Reply unit)
| AnsLogin (reply : Reply (option User))
| AnsRegister (reply : Reply unit).

Inductive Event :=
| ChangeEmail (text : string)
| ChangePassword (text : string)
| ChangeFullName (text : string)
| PressLogin
| PressCreateAccount
| PressRegister
| PressBackToLogin
| PressRetry
| Logout                          (* onLogout of the translation screen *)
| OpenProfile                     (* onProfile of the translation screen *)
| BackFromProfile                 (* onBack of the profile screen *)
| UpdateUser (u : option User)    (* onUpdateUser of the profile screen *)
| Resume (i : nat) (ans : Answer).

(** A gesture reaches its handler when its control is on the screen that
    is rendered and is enabled. *)
Definition on_screen (which : Shown) (enabled : bool) (h : State -> Step)
    (s : State) : Step :=
  match getCurrentScreen s, which with
  | LoginForm, LoginForm | RegisterForm, RegisterForm
  | Translation, Translation | Profile, Profile =>
      if enabled then h s else (s, None)
  | _, _ => (s, None)
  end.

Definition resume (a : Await) (ans : Answer) (s : State) : option State :=
  match a, ans with
  | AwCheck, AnsCheck reply => Some (check_answered reply s)
  | AwLogin, AnsLogin reply => Some (login_answered reply s)
  | AwRegister, AnsRegister reply => Some (register_answered reply s)
  | _, _ => None
  end.

Definition handle (e : Event) (s : State) : Step :=
  match e with
  | ChangeEmail text =>
      match getCurrentScreen s with
      | LoginForm | RegisterForm => (setEmail text s, None)
      | _ => (s, None)
      end
  | ChangePassword text =>
      match getCurrentScreen s with
      | LoginForm | RegisterForm => (setPassword text s, None)
      | _ => (s, None)
      end
  | ChangeFullName text =>
      on_screen RegisterForm true (fun s => (setFullName text s, None)) s
  | PressLogin =>
      on_screen LoginForm
        (negb (loading s || negb (String.eqb (apiStatus s) "connected")))
        handleLogin s
  | PressCreateAccount =>
      on_screen LoginForm true (fun s => (setCurrentScreen "register" s, None)) s
  | PressRegister => on_screen RegisterForm (negb (loading s)) handleRegister s
  | PressBackToLogin =>
      on_screen RegisterForm true (fun s => (setCurrentScreen "login" s, None)) s
  | PressRetry => if status_indicator_shown s then checkAPI s else (s, None)
  | Logout => on_screen Translation true (fun s => (handleLogout s, None)) s
  | OpenProfile =>
      on_screen Translation true (fun s => (setCurrentScreen "profile" s, None)) s
  | BackFromProfile =>
      on_screen Profile true (fun s => (setCurrentScreen "translation" s, None)) s
  | UpdateUser u => on_screen Profile true (fun s => (setUser u s, None)) s
  | Resume i ans =>
      match nth_error (tasks s) i with
      | Some a =>
          match resume a ans (set_tasks (drop_nth i (tasks s)) s) with
          | Some s' => (s', None)
          | None => (s, None)
          end
      | None => (s, None)
      end
  end.

Definition step (e : Event) (s : State) : State :=
  let '(s', pending) := handle e s in
  match pending with
  | Some a => set_tasks (tasks s' ++ [a]) s'
  | None => s'
  end.

Definition run (es : list Event) (s : State) : State :=
  fold_left (fun s e => step e s) es s.

(** The login and registration requests that are out. *)
Definition auth_pending (s : State) : nat :=
  List.length
    (filter (fun a => match a with AwCheck => false | _ => true end) (tasks s)).

Definition one_auth_request (s : State) : Prop :=
  auth_pending s = if loading s then 1 else 0.

Definition known_screen (s : State) : Prop :=
  In (currentScreen s) ["login"; "register"; "translation"; "profile"].

Definition is_protected (s : State) : bool :=
  String.eqb (currentScreen s) "translation" ||
  String.eqb (currentScreen s) "profile".

Definition login_pending (s : State) : bool :=
  existsb (fun a => match a with AwLogin => true | _ => false end) (tasks s).

Definition login_sent (s : State) : bool :=
  existsb (fun e => match e with PostLogin _ _ => true | _ => false end) (log s).

Definition behind_login (s : State) : Prop :=
  known_screen s /\
  (is_protected s = true -> login_sent s = true) /\
  (login_pending s = true -> login_sent s = true).

(** The server was reached. *)
Definition connected : State :=
  run [Resume 0 (AnsCheck (Http 200 (inl tt)))] mounted.

(** On the login form, with an email and a password typed in. *)
Definition filled_in : State :=
  run [ChangeEmail "thabo@example.org"; ChangePassword "secret"] connected.

(** The login request is out. *)
Definition login_waiting : State := step PressLogin filled_in.

(** On the registration form, with all three fields typed in. *)
Definition registering : State :=
  run [ PressCreateAccount; ChangeFullName "Thabo Mokoena";
        ChangeEmail "thabo@example.org"; ChangePassword "secret" ] connected.

End App.

(** ** The profile screen: getInitials *)

Module Profile.

(** [name.split(' ')]: the pieces between the spaces, empty ones included. *)
Fixpoint split_spaces (name : string) : list string :=
  match name with
  | EmptyString => [EmptyString]
  | String c rest =>
      if Ascii.eqb c " " then EmptyString :: split_spaces rest
      else
        match split_spaces rest with
        | word :: words => String c word :: words
        | [] => [String c EmptyString]
        end
  end.

(** [n[0]], which is [undefined] for the empty piece and is then joined as
    the empty string. *)
Definition first_char (word : string) : string :=
  match word with
  | EmptyString => EmptyString
  | String c _ => String c EmptyString
  end.

Definition is_lower (c : ascii) : bool :=
  let n := nat_of_ascii c in Nat.leb 97 n && Nat.leb n 122.

(** [toUpperCase] on the ASCII letters. *)
Definition upper (c : ascii) : ascii :=
  if is_lower c then ascii_of_nat (nat_of_ascii c - 32) else c.

Fixpoint toUpperCase (s : string) : string :=
  match s with
  | EmptyString => EmptyString
  | String c rest => String (upper c) (toUpperCase rest)
  end.

(** [name.split(' ').map(n => n[0]).join('').toUpperCase()] *)
Definition getInitials (name : string) : string :=
  toUpperCase (String.concat "" (map first_char (split_spaces name))).

(** Neither a lower-case letter nor a space. *)
Definition initial_char (c : ascii) : bool :=
  negb (is_lower c) && negb (Ascii.eqb c " ").

End Profile.

(** *** More tactics *)

Ltac break_if :=
  match goal with
  | |- context [if ?x then _ else _] => is_var x; destruct x
  | |- context [if ?x then _ else _] => destruct x eqn:?
  end.

Ltac open_app s :=
  let cs := fresh "currentScreen0" in
  let us := fresh "user0" in
  let em := fresh "email0" in
  let pw := fresh "password0" in
  let fn := fresh "fullName0" in
  let ld := fresh "loading0" in
  let ap := fresh "apiStatus0" in
  let ts := fresh "tasks0" in
  let lg := fresh "log0" in
  destruct s as [cs us em pw fn ld ap ts lg].

Ltac open_app_pieces :=
  cbv [App.handle App.on_screen App.handleLogin App.handleRegister
       App.handleLogout App.checkAPI App.resume App.login_answered
       App.register_answered App.check_answered App.status_indicator_shown].

(** What was found among the timers or the tasks is quiet. *)
Ltac quiet_found HT HM :=
  repeat match goal with
  | H : find _ _ = Some _ |- _ =>
      let I := fresh in
      apply find_some in H as [I _];
      rewrite forallb_forall in HM; specialize (HM _ I); simpl in HM
  | H : nth_error _ _ = Some _ |- _ =>
      let I := fresh in
      apply nth_error_In in H as I; clear H;
      rewrite forallb_forall in HT; specialize (HT _ I); simpl in HT
  end.

(** Close "protected or pending, so a login was sent" from the same facts
    [H1], [H2] about the state before; [H3] takes a pending request after a
    task was dropped back to one before. *)
Ltac behind H1 H2 H3 :=
  let Q := fresh "Q" in
  intros Q; rewrite ?existsb_app in *; cbn [existsb orb] in *;
  rewrite ?orb_false_r in *;
  first
    [ reflexivity
    | discriminate
    | rewrite (H1 Q); reflexivity
    | rewrite (H2 Q); reflexivity
    | rewrite (H2 (H3 Q)); reflexivity
    | rewrite (H1 eq_refl); reflexivity
    | rewrite ?orb_true_r; reflexivity ].

(** * Proofs *)

Unset Implicit Arguments.

(** ** The capture controller holds at most one recorder *)

Lemma start_keeps_one (o : Oracle) (s : Screen) :
  owned s -> nominal o = true ->
  forallb one_recorder (call_trace Start o s) = true /\ owned (call Start o s).
Proof.
  open_screen s. unfold owned, held. simpl. intros [-> ->].
  destruct o as [st un uri am pr sa ph x y z].
  unfold nominal; simpl.
  destruct st as [[cr sr]|]; [|discriminate].
  destruct un as [[]|]; [|discriminate].
  destruct cr; [|discriminate]. destruct sr; [|discriminate].
  destruct pr as [[]|], sa as [[]|]; try discriminate; intros _;
  unfold call, call_trace;
  destruct hasAudioPermission0, isMountedRef0, isRecording0,
    durationIntervalRef0, recordingTimeoutRef0, isRecordingRef0,
    am as [[]|], recordingRef0 as [r|];
  try (pose proof (Nat.eqb_refl r) as E; vm_compute in E);
  vm_compute; rewrite ?E; vm_compute;
  (split; [reflexivity | split; reflexivity]).
Qed.

Lemma stop_keeps_one (o : Oracle) (s : Screen) :
  owned s -> nominal o = true ->
  forallb one_recorder (call_trace Stop o s) = true /\ owned (call Stop o s).
Proof.
  open_screen s. unfold owned, held. simpl. intros [-> ->].
  destruct o as [st un uri am pr sa ph x y z].
  unfold nominal; simpl.
  destruct st as [[cr sr]|]; [|discriminate].
  destruct un as [[]|]; [|discriminate].
  destruct cr; [|discriminate]. destruct sr; [|discriminate].
  intros _. unfold call, call_trace.
  destruct uri as [[|ch u]|];
  [ | split_index 21 ph | ];
  destruct isMountedRef0, isRecording0, durationIntervalRef0,
    recordingTimeoutRef0, isRecordingRef0, recordingRef0 as [r|];
  try (pose proof (Nat.eqb_refl r) as E; vm_compute in E);
  vm_compute; rewrite ?E; vm_compute;
  (split; [reflexivity | split; reflexivity]).
Qed.

Lemma call_keeps_one (c : Call) (o : Oracle) (s : Screen) :
  owned s -> nominal o = true ->
  forallb one_recorder (call_trace c o s) = true /\ owned (call c o s).
Proof.
  destruct c; [apply start_keeps_one | apply stop_keeps_one].
Qed.

(** The controller's own release.  For every sequence of [start()] and
    [stop()] calls, each run to its end, in which the native calls on an
    existing recorder go well ([nominal]), at most one native recorder exists
    in every store the calls go through, from a store where the only recorder
    is the one the controller refers to, whatever the device would allow. *)
Lemma one_recorder_when_native_calls_succeed :
  forall (cs : list (Call * Oracle)) (s : Screen),
    owned s ->
    forallb (fun c => nominal (snd c)) cs = true ->
    at_most_one_recorder cs s = true.
Proof.
  unfold at_most_one_recorder.
  induction cs as [|[c o] rest IH]; intros s Hs Hn; [reflexivity|].
  simpl in Hn. apply andb_prop in Hn as [Ho Hrest].
  destruct (call_keeps_one c o s Hs Ho) as [Htrace Hnext].
  change (calls_trace ((c, o) :: rest) s)
    with ((call_trace c o s ++ calls_trace rest (call c o s))%list).
  rewrite forallb_app, Htrace.
  now apply IH.
Qed.

(** Where the release is left out, the device is what keeps the recorders
    apart.  [start()], then a [stop()] whose status query finds the recorder
    not recording (so that [stopAndUnloadAsync] is not called and only the
    reference is dropped), then [start()] again: were the device to let
    recorder 4 be prepared, recorder 1 would still be there. *)
Lemma second_recorder_after_unreleased_stop :
  at_most_one_recorder
    [(Start, all_well); (Stop, not_recording_yet); (Start, all_well)] ready
  = false.
Proof. vm_compute. reflexivity. Qed.

(** The recorders that exist at the end of that run. *)
Lemma recorders_after_unreleased_stop :
  native (world (calls [(Start, all_well); (Stop, not_recording_yet);
                        (Start, all_well)] ready)) = [4; 1].
Proof. vm_compute. reflexivity. Qed.

(** The same after a start whose [startAsync] is rejected: the inner [catch]
    drops the reference to a recorder that was prepared. *)
Lemma recorders_after_rejected_start :
  recordingRef (refs (call Start start_rejected ready)) = None /\
  native (world (call Start start_rejected ready)) = [1] /\
  native (world (calls [(Start, start_rejected); (Start, all_well)] ready)) = [2; 1].
Proof. vm_compute. repeat split. Qed.

(** In [start()], the cleanup and the 300 ms delay come before the new
    recorder is prepared. *)
Lemma start_cleans_up_then_waits_then_prepares :
  log (world (call Start all_well (call Start all_well ready))) =
  (log (world (call Start all_well ready)) ++
   [GetStatus 1; StopAndUnload 1; Sleep 300; Vibrate; SetAudioMode;
    Prepare 4; StartAsync 4])%list.
Proof. vm_compute. reflexivity. Qed.

(** Effects added at the end, all at once or one by one. *)
Lemma added_one_by_one {A} (es l : list A) :
  (l ++ es)%list = fold_left (fun l e => (l ++ [e])%list) es l.
Proof.
  revert l. induction es as [|e es IH]; intros l; simpl.
  - apply app_nil_r.
  - rewrite <- IH, <- app_assoc. reflexivity.
Qed.

(** The same for every [start()] whose native calls go well: the recorder
    that is held is queried, stopped and unloaded, then comes the delay, and
    only then the new recorder, which is the only one afterwards. *)
Lemma start_releases_then_prepares (o : Oracle) (s : Screen) :
  owned s -> hasAudioPermission (react s) = true ->
  nominal o = true -> starts_well o = true ->
  log (world (call Start o s)) =
    (log (world s) ++ released s ++
     [ Sleep 300; Vibrate; SetAudioMode;
       Prepare (nextId (world s)); StartAsync (nextId (world s)) ])%list /\
  native (world (call Start o s)) = [nextId (world s)] /\
  recordingRef (refs (call Start o s)) = Some (nextId (world s)).
Proof.
  rewrite added_one_by_one.
  open_screen s. unfold owned, held, released. simpl. intros [-> ->] ->.
  destruct o as [st un uri am pr sa ph x y z].
  unfold nominal, starts_well; simpl.
  destruct st as [[[] []]|], un as [[]|]; simpl; try discriminate. intros _.
  destruct am as [[]|], pr as [[]|], sa as [[]|]; try discriminate. intros _.
  unfold call, call_trace.
  destruct isMountedRef0, isRecording0, durationIntervalRef0,
    recordingTimeoutRef0, isRecordingRef0, recordingRef0 as [r|];
  try (pose proof (Nat.eqb_refl r) as E; vm_compute in E);
  vm_compute; repeat (rewrite E; vm_compute); repeat split.
Qed.

Lemma filter_length_le {A} (f : A -> bool) (l : list A) :
  List.length (filter f l) <= List.length l.
Proof.
  induction l as [|x l IH]; simpl; [lia|]. destruct (f x); simpl; lia.
Qed.

Lemma commit_native (before s : Screen) :
  native (world (commit before s)) = native (world s).
Proof.
  open_screen s. open_pieces. repeat (cbn; try break_match); reflexivity.
Qed.

(** A recorder only comes into being where [prepareToRecordAsync]
    resolves, which the device allows only when there is none. *)
Lemma handle_one_recorder (e : Event) (s : Screen) :
  List.length (native (world s)) <= 1 ->
  device_allows e s = true ->
  List.length (native (world (fst (handle e s)))) <= 1.
Proof.
  intros H D. open_screen s. simpl in H.
  pose proof (fun f => filter_length_le f native0) as F.
  destruct e; unfold handle, unmount; open_pieces;
    repeat (cbn; try break_match); cbn;
    try exact H; try (eapply Nat.le_trans; [apply F | exact H]).
  all: cbn in D;
    match goal with
    | E : nth_error _ _ = Some _ |- _ => rewrite E in D
    end;
    destruct native0; [simpl; lia | discriminate].
Qed.

Lemma step_one_recorder (e : Event) (s : Screen) :
  one_recorder s = true -> device_allows e s = true ->
  one_recorder (step e s) = true.
Proof.
  unfold one_recorder. intros H D. apply Nat.leb_le in H. apply Nat.leb_le.
  pose proof (handle_one_recorder e s H D) as G.
  unfold step. destruct (handle e s) as [s' p]. simpl in G.
  rewrite commit_native. destruct p; exact G.
Qed.

Lemma trace_one_recorder (es : list Event) (s : Screen) :
  one_recorder s = true -> device_respected es s = true ->
  forallb one_recorder (trace es s) = true.
Proof.
  revert s. induction es as [|e es IH]; intros s H D; [reflexivity|].
  simpl in D. apply andb_prop in D as [D1 D2]. simpl.
  pose proof (step_one_recorder e s H D1) as H'.
  rewrite H'. exact (IH _ H' D2).
Qed.



(** On the device, the second [start()] of [busy_device] fails: the
    recorder that the stop left behind stays the only one, and "Recording
    Error" is raised. *)
Lemma second_start_refused_by_device :
  native (world (run busy_device ready)) = [1] /\
  recordingRef (refs (run busy_device ready)) = None /\
  isRecording (react (run busy_device ready)) = false /\
  In (Alert "Recording Error" "Failed to start recording. Please try again.")
    (log (world (run busy_device ready))).
Proof. vm_compute. repeat split. auto 20. Qed.

(** ** The auto-stop timer and the manual stop *)

Lemma find_after_filter {A} (f : A -> bool) (l : list A) :
  find f (filter (fun x => negb (f x)) l) = None.
Proof.
  induction l as [|x l IH]; [reflexivity|].
  simpl. destruct (f x) eqn:E; simpl; [exact IH|].
  rewrite E. exact IH.
Qed.

(** A start that succeeds arms the auto-stop timer and keeps its id. *)
Lemma start_arms_timer (r : Render) (rec : nat) (s : Screen) :
  let s' := fst (start_started r rec (Resolved tt) s) in
  recordingTimeoutRef (refs s') = Some (nextId (world s)) /\
  In (nextId (world s), CbAutoStop r) (timers (world s')).
Proof.
  open_screen s. unfold start_started, show_recording.
  destruct isMountedRef0, recordingTimeoutRef0; simpl;
    (split; [reflexivity | apply in_or_app; right; left; reflexivity]).
Qed.

(** A stop begins by disarming the timer it finds in the ref. *)
Lemma stop_disarms_timer (r : Render) (s : Screen) (t : nat) :
  recordingTimeoutRef (refs s) = Some t ->
  let s' := fst (stopRecording r s) in
  recordingTimeoutRef (refs s') = None /\
  find (fun p => Nat.eqb (fst p) t) (timers (world s')) = None.
Proof.
  open_screen s. simpl. intros ->.
  unfold stopRecording, show_recording.
  destruct isRecordingRef0, recordingRef0, isMountedRef0; simpl;
    (split; [reflexivity | apply (find_after_filter (fun p => Nat.eqb (fst p) t))]).
Qed.

(** The timer's callback does nothing once the flag is down. *)
Lemma auto_stop_checks_flag (r : Render) (s : Screen) :
  isRecordingRef (refs s) = false ->
  run_callback (CbAutoStop r) s = (s, None).
Proof. simpl. intros ->. reflexivity. Qed.

(** With the flag up the timer's callback is [stopRecording] itself. *)
Lemma auto_stop_is_stop (r : Render) (s : Screen) :
  isRecordingRef (refs s) = true ->
  run_callback (CbAutoStop r) s = stopRecording r s.
Proof. simpl. intros ->. reflexivity. Qed.

(** A stop that is waiting for the status does not keep a second one from
    passing the guard: the flag and the reference are still up. *)
Lemma second_stop_passes_guard (r r' : Render) (rec : nat) (s : Screen) :
  isRecordingRef (refs s) = true ->
  recordingRef (refs s) = Some rec ->
  snd (stopRecording r s) = Some (AwStopStatus r) /\
  snd (stopRecording r' (fst (stopRecording r s))) = Some (AwStopStatus r').
Proof.
  open_screen s. simpl. intros -> ->.
  unfold stopRecording. destruct recordingTimeoutRef0; split; reflexivity.
Qed.

(** When the button comes first, one stop runs: the timer is gone. *)
Lemma button_then_timer_stops_once :
  unload_calls (log (world (run (start_by_button ++ button_then_timer) ready))) = 1.
Proof. vm_compute. reflexivity. Qed.

(** C2, at the interleaving where it fails.  The recording is on and the
    auto-stop timer expires: its [stopRecording] disarms the timer, passes the
    guard and waits for the status.  The flag [isRecordingRef] is still up, so
    a press on the record button calls [stopRecording] once more, and it
    passes the guard too.  Both go on to call [stopAndUnloadAsync] on
    recorder 1: two stops run, and one of them gets the recording. *)
Theorem auto_stop_and_manual_stop_overlap :
  let recording := run start_by_button ready in
  let both_waiting := run [EvTimer 2; EvPressVoice] recording in
  let s := run timer_then_button recording in
  isRecordingRef (refs recording) = true /\
  timers (world recording) = [(2, CbAutoStop (render_of ready))] /\
  tasks (world both_waiting) =
    [AwStopStatus (render_of ready); AwStopStatus (render_of recording)] /\
  log (world s) =
    (log (world recording) ++
     [Vibrate; GetStatus 1; Vibrate; GetStatus 1;
      StopAndUnload 1; StopAndUnload 1;
      Transcribe "file:///recording.m4a"])%list /\
  unload_calls (log (world s)) = 2.
Proof. vm_compute. repeat split. Qed.

(** ** Stopping when nothing is being recorded *)

(** C3.  With no live session ([recordingRef] is [null] or [isRecordingRef]
    is down) [stopRecording] returns at once: it parks nowhere, so nothing is
    raised and nothing awaited; apart from the vibration it asks nothing of
    the outside (no status query, no unload, no transcription); and on a
    mounted screen the recording and listening flags are down. *)
Theorem stop_without_session_is_noop :
  forall (r : Render) (s : Screen),
    no_live_session s ->
    let s' := fst (stopRecording r s) in
    snd (stopRecording r s) = None /\
    log (world s') = (log (world s) ++ [Vibrate])%list /\
    tasks (world s') = tasks (world s) /\
    native (world s') = native (world s) /\
    isTranscribing (react s') = isTranscribing (react s) /\
    inputText (react s') = inputText (react s) /\
    (isMountedRef (refs s) = true ->
     isRecording (react s') = false /\ isListening (react s') = false).
Proof.
  intros r s H. open_screen s. unfold no_live_session in H. simpl in H.
  unfold stopRecording, show_recording.
  destruct H as [-> | ->];
    destruct recordingTimeoutRef0, isMountedRef0;
    try destruct isRecordingRef0; try destruct recordingRef0;
    simpl; repeat split; intros; try reflexivity; discriminate.
Qed.

Lemma stop_without_session_is_noop_witness :
  no_live_session ready /\
  snd (stopRecording (render_of ready) ready) = None /\
  log (world (fst (stopRecording (render_of ready) ready))) =
    (log (world ready) ++ [Vibrate])%list.
Proof.
  assert (H : no_live_session ready) by (left; reflexivity).
  split; [exact H|].
  pose proof (stop_without_session_is_noop (render_of ready) ready H) as P.
  split; [exact (proj1 P) | exact (proj1 (proj2 P))].
Defined.

(** The same through the event loop: the call leaves nothing parked. *)
Lemma stop_event_without_session (s : Screen) :
  no_live_session s -> tasks (world (step EvStop s)) = tasks (world s).
Proof.
  intros H. open_screen s. unfold no_live_session in H. simpl in H.
  unfold step, handle, stopRecording. open_pieces.
  destruct H as [-> | ->];
    destruct recordingTimeoutRef0, isMountedRef0, isRecording0,
      durationIntervalRef0;
    try destruct isRecordingRef0; try destruct recordingRef0;
    reflexivity.
Qed.

(** ** Teardown while a request is out *)

(** C4, where it fails.  The screen is unmounted while the catalog request
    and the permission request are out.  When they settle, [loadLanguages]
    and [setupAudio] write [languages] and [hasAudioPermission] and raise an
    alert without looking at [isMountedRef]. *)
Theorem catalog_written_after_unmount :
  let gone := step EvUnmount (mount initial) in
  let later :=
    run [ EvResume 0 (AnsCatalog Rejected);
          EvResume 0 (AnsPermission (Resolved "granted"));
          EvResume 0 (AnsUnit ok) ] gone in
  isMountedRef (refs gone) = false /\
  tasks (world gone) = [AwLanguages; AwPermission] /\
  languages (react gone) = [] /\
  hasAudioPermission (react gone) = false /\
  languages (react later) = defaultLanguages /\
  hasAudioPermission (react later) = true /\
  log (world later) =
    (log (world gone) ++
     [Alert "Error" "Failed to load languages. Using default languages.";
      SetAudioMode])%list.
Proof. vm_compute. repeat split. Qed.

(** The writes after the other suspension points are behind the flag: on an
    unmounted screen the state cells stay as they are. *)
Lemma guarded_writes_after_unmount (s : Screen) :
  isMountedRef (refs s) = false ->
  (forall r o, react (fst (translated r o s)) = react s) /\
  (forall r i, react (fst (recognized r i s)) = react s) /\
  (forall r o, react (fst (stop_status r o s)) = react s) /\
  (forall r rec o uri, react (fst (stop_unloaded r rec o uri s)) = react s) /\
  (forall r rec o, react (fst (start_started r rec o s)) = react s) /\
  (forall r rec o, react (fst (start_prepared r rec o s)) = react s) /\
  (forall k o, react (fst (cleanup_status k o s)) = react s).
Proof.
  open_screen s. simpl. intros ->.
  repeat split; intros; open_pieces; repeat (cbn; try break_match); reflexivity.
Qed.

(** ** Translation *)

(** A translation is asked for with the text and the target language of the
    render the handler belongs to; nothing but [loading] is written. *)
Lemma translate_request (r : Render) (s : Screen) :
  truthy (trim (r_inputText r)) = true ->
  isMountedRef (refs s) = true ->
  handleTranslate r s =
  (emit (PostTranslate (r_inputText r) "en" (r_targetLanguage r))
     (setLoading true s),
   Some (AwTranslate r)).
Proof. unfold handleTranslate. intros -> ->. reflexivity. Qed.

(** C5.  A translation request is out (parked as task [i]) and it fails: the
    [fetch] is rejected or the response is not 2xx.  When the failure comes
    in, the input text and the translated text are what they were, so the
    translated text is still empty if it was; no playback is scheduled; and
    on a mounted screen the "Translation Error" alert is raised and
    [loading] is down again. *)
Theorem failed_translation_keeps_texts :
  forall (i : nat) (r : Render) (o : FetchOutcome string) (s : Screen),
    nth_error (tasks (world s)) i = Some (AwTranslate r) ->
    request_failed o = true ->
    let s' := step (EvResume i (AnsTranslation o)) s in
    inputText (react s') = inputText (react s) /\
    translatedText (react s') = translatedText (react s) /\
    (translatedText (react s) = "" -> translatedText (react s') = "") /\
    timers (world s') = timers (world s) /\
    tasks (world s') = drop_nth i (tasks (world s)) /\
    (isMountedRef (refs s) = true ->
     loading (react s') = false /\
     log (world s') =
       (log (world s) ++
        [Alert "Translation Error"
           "Failed to translate text. Please check your connection and try again."])%list).
Proof.
  intros i r o s Htask Hfail. open_screen s. simpl in Htask.
  unfold step, handle. simpl tasks. rewrite Htask.
  unfold resume, translated.
  destruct o as [[code b]|]; unfold request_failed in Hfail; simpl in Hfail;
    [ apply negb_true_iff in Hfail; rewrite Hfail | ];
    open_pieces; destruct isMountedRef0; simpl;
    rewrite ?eqb_reflx; simpl;
    repeat split; intros; try reflexivity; try assumption; discriminate.
Qed.

Lemma failed_translation_keeps_texts_witness :
  nth_error (tasks (world translation_waiting)) 0 =
    Some (AwTranslate (mkRender "Thank you" "" "zu" true)) /\
  request_failed server_error = true /\
  inputText (react (step (EvResume 0 (AnsTranslation server_error))
                      translation_waiting)) = "Thank you" /\
  translatedText (react (step (EvResume 0 (AnsTranslation server_error))
                           translation_waiting)) = "".
Proof.
  assert (H : nth_error (tasks (world translation_waiting)) 0 =
              Some (AwTranslate (mkRender "Thank you" "" "zu" true)))
    by reflexivity.
  split; [exact H|]. split; [reflexivity|].
  pose proof (failed_translation_keeps_texts 0
                (mkRender "Thank you" "" "zu" true) server_error
                translation_waiting H eq_refl) as P.
  split.
  - exact (proj1 P).
  - exact (proj1 (proj2 (proj2 P)) eq_refl).
Defined.

(** C6, where it fails.  "Thank you" is typed and translated, the service
    answers "Ngiyabonga", and the 500 ms timer for the playback expires.  The
    callback is [speakTranslatedText] of the render that sent the request,
    where [translatedText] is still empty: nothing is spoken.  After the next
    translation ("Good morning", "Sawubona") it is the text of the
    translation before, "Ngiyabonga", that is spoken.  The locale is the
    mapped one, "zu-ZA", and "Speak Again" speaks the text on the screen. *)
Theorem auto_speak_uses_render_text :
  let first :=
    run [ EvChangeText "Thank you"; EvPressTranslate;
          EvResume 0 (AnsTranslation (in_zulu "Ngiyabonga")); EvTimer 1 ] ready in
  let second :=
    run [ EvChangeText "Good morning"; EvPressTranslate;
          EvResume 0 (AnsTranslation (in_zulu "Sawubona")); EvTimer 2 ] first in
  let again := step EvSpeakAgain second in
  translatedText (react first) = "Ngiyabonga" /\
  loading (react first) = false /\
  timers (world first) = [] /\
  spoken (log (world first)) = [] /\
  translatedText (react second) = "Sawubona" /\
  spoken (log (world second)) = [Speak "Ngiyabonga" "zu-ZA"] /\
  spoken (log (world again)) =
    [Speak "Ngiyabonga" "zu-ZA"; Speak "Sawubona" "zu-ZA"].
Proof. vm_compute. repeat split. Qed.

(** What a successful translation writes and schedules, on a mounted screen:
    the returned text, and the playback of the sending render. *)
Lemma translation_success (r : Render) (text : string) (s : Screen) :
  isMountedRef (refs s) = true ->
  let s' := fst (translated r (in_zulu text) s) in
  translatedText (react s') = text /\
  loading (react s') = false /\
  timers (world s') = (timers (world s) ++ [(nextId (world s), CbSpeak r)])%list.
Proof.
  open_screen s. simpl. intros ->. repeat split.
Qed.

(** The playback callback speaks the text of its own render, in the locale
    mapped from that render's target language. *)
Lemma playback_of_render (r : Render) (s : Screen) :
  truthy (r_translatedText r) = true ->
  isMountedRef (refs s) = true ->
  speakTranslatedText r s =
  emit (Speak (r_translatedText r) (languageCode (r_targetLanguage r))) s.
Proof. unfold speakTranslatedText. intros -> ->. reflexivity. Qed.

Lemma languageCode_table :
  languageCode "zu" = "zu-ZA" /\ languageCode "xh" = "xh-ZA" /\
  languageCode "af" = "af-ZA" /\ languageCode "st" = "st-ZA" /\
  languageCode "en" = "en-US".
Proof. repeat split. Qed.

(** C7, where it fails.  On the fresh screen the quick phrase "Thank you" is
    tapped.  The phrase goes into the input field, and 100 ms later
    [handleTranslate] of the render that was tapped runs, where [inputText]
    is still empty: it raises "Please enter text to translate" and sends
    nothing.  A second tap, on "Good morning", sends the phrase of the tap
    before. *)
Theorem quick_phrase_translates_render_text :
  let first := run [EvQuickPhrase "Thank you"; EvTimer 1] ready in
  let second := run [EvQuickPhrase "Good morning"; EvTimer 2] first in
  inputText (react first) = "Thank you" /\
  log (world first) =
    (log (world ready) ++ [Alert "Error" "Please enter text to translate"])%list /\
  tasks (world first) = [] /\
  inputText (react second) = "Good morning" /\
  posted (log (world second)) = [PostTranslate "Thank you" "en" "zu"].
Proof. vm_compute. repeat split. Qed.

(** A tap neither records nor transcribes: it writes the input field and
    schedules [handleTranslate] of the tapped render. *)
Lemma quick_phrase_schedules_translate (phrase : string) (s : Screen) :
  isMountedRef (refs s) = true ->
  let s' := handleQuickPhrase (render_of s) phrase s in
  inputText (react s') = phrase /\
  log (world s') = log (world s) /\
  timers (world s') =
    (timers (world s) ++ [(nextId (world s), CbTranslate (render_of s))])%list.
Proof.
  open_screen s. simpl. intros ->. repeat split.
Qed.

(** ** Start, then stop at once *)

Lemma start_settles (o : Oracle) (s : Screen) :
  tasks (world s) = [] ->
  isMountedRef (refs s) = true ->
  hasAudioPermission (react s) = true ->
  tasks (world (call Start o s)) = [] /\
  isMountedRef (refs (call Start o s)) = true /\
  in_step (call Start o s).
Proof.
  open_screen s. simpl. intros -> -> ->.
  destruct o as [st un uri am pr sa ph x y z].
  unfold call, call_trace, in_step.
  destruct isRecording0, durationIntervalRef0, recordingTimeoutRef0,
    recordingRef0, isRecordingRef0, st as [[cr []]|], un as [[]|],
    am as [[]|], pr as [[]|], sa as [[]|];
  vm_compute; repeat split.
Qed.

Lemma stop_comes_to_rest (o : Oracle) (s : Screen) :
  tasks (world s) = [] ->
  isMountedRef (refs s) = true ->
  in_step s ->
  idle (call Stop o s).
Proof.
  open_screen s. unfold in_step. simpl. intros -> -> H.
  destruct o as [st un uri am pr sa ph x y z].
  unfold call, call_trace, idle.
  destruct recordingRef0; subst isRecordingRef0;
  destruct st as [[[] []]|], un as [[]|], uri as [[|ch u]|];
  try (split_index 21 ph);
  destruct isRecording0, durationIntervalRef0, recordingTimeoutRef0;
  vm_compute; repeat split.
Qed.

(** C8, as the code has it.  On a mounted screen with the permission
    granted and nothing else under way: after [start()] and then [stop()],
    each run to its end, whatever the native calls answered (the status query
    may find the recorder not recording yet, and any of the calls may fail),
    the reference is [null], the flags are down, the timer is disarmed and
    both calls have returned. *)
Theorem start_then_stop_is_idle :
  forall (o1 o2 : Oracle) (s : Screen),
    tasks (world s) = [] ->
    isMountedRef (refs s) = true ->
    hasAudioPermission (react s) = true ->
    idle (calls [(Start, o1); (Stop, o2)] s).
Proof.
  intros o1 o2 s Ht Hm Hp.
  destruct (start_settles o1 s Ht Hm Hp) as (Ht' & Hm' & Hstep).
  exact (stop_comes_to_rest o2 (call Start o1 s) Ht' Hm' Hstep).
Qed.

Lemma start_then_stop_is_idle_witness :
  tasks (world ready) = [] /\
  isMountedRef (refs ready) = true /\
  hasAudioPermission (react ready) = true /\
  idle (calls [(Start, all_well); (Stop, not_recording_yet)] ready).
Proof.
  split; [reflexivity|]. split; [reflexivity|]. split; [reflexivity|].
  apply (start_then_stop_is_idle all_well not_recording_yet ready);
    reflexivity.
Defined.

(** C8 as stated fails.  A [stop()] that is called while the [start()]
    before it still waits finds no session and returns at its guard; the
    start goes on, and the controller ends recording, with the reference to
    recorder 1 and its auto-stop timer armed. *)
Lemma stop_while_starting_is_lost :
  recordingRef (refs (run stop_while_starting ready)) = Some 1 /\
  isRecordingRef (refs (run stop_while_starting ready)) = true /\
  isRecording (react (run stop_while_starting ready)) = true /\
  recordingTimeoutRef (refs (run stop_while_starting ready)) = Some 2 /\
  tasks (world (run stop_while_starting ready)) = [] /\
  ~ idle (run stop_while_starting ready).
Proof.
  assert (R : recordingRef (refs (run stop_while_starting ready)) = Some 1)
    by (vm_compute; reflexivity).
  split; [exact R|]. repeat (split; [vm_compute; reflexivity|]).
  intros (N & _). rewrite R in N. discriminate.
Qed.

(** ** The language catalog *)

(** C9.  When the catalog request fails (the [fetch] is rejected or the
    response is not [ok]) the languages are the four defaults, isiZulu,
    isiXhosa, Afrikaans and Sesotho; when it succeeds with a catalog, the
    languages are that catalog. *)
Theorem catalog_or_default_languages :
  forall (o : FetchOutcome (option (list Language))) (s : Screen),
    snd (loadLanguages s) = Some AwLanguages /\
    resume AwLanguages (AnsCatalog o) s = Some (languages_loaded o s) /\
    (request_failed o = true ->
     languages (react (fst (languages_loaded o s))) = defaultLanguages) /\
    (forall code catalog,
       o = Resolved (mkResponse code (Resolved (Some catalog))) ->
       request_failed o = false ->
       languages (react (fst (languages_loaded o s))) = catalog) /\
    map (fun l => (lang_code l, lang_name l)) defaultLanguages =
      [("zu", "isiZulu"); ("xh", "isiXhosa"); ("af", "Afrikaans"); ("st", "Sesotho")] /\
    List.length defaultLanguages = 4.
Proof.
  intros o s. split; [reflexivity|]. split; [reflexivity|].
  split; [|split; [|split; reflexivity]].
  - intros H. destruct o as [resp|]; [|reflexivity].
    unfold request_failed in H. unfold languages_loaded.
    destruct (response_ok resp); [discriminate | reflexivity].
  - intros code catalog -> H.
    unfold request_failed in H. unfold languages_loaded.
    destruct (response_ok _); [reflexivity | discriminate].
Qed.

Lemma catalog_or_default_languages_witness :
  languages (react (fst (languages_loaded Rejected initial))) = defaultLanguages /\
  languages (react (fst (languages_loaded
     (Resolved (mkResponse 200 (Resolved (Some [mkLanguage 7 "en" "English"]))))
     initial))) = [mkLanguage 7 "en" "English"].
Proof.
  split.
  - apply (proj1 (proj2 (proj2 (catalog_or_default_languages Rejected initial)))).
    reflexivity.
  - apply (proj1 (proj2 (proj2 (proj2
             (catalog_or_default_languages
                (Resolved (mkResponse 200
                   (Resolved (Some [mkLanguage 7 "en" "English"])))) initial))))
             200%Z [mkLanguage 7 "en" "English"]); reflexivity.
Defined.

(** A body without [languages] gives the empty list, and a body that does
    not parse gives the defaults. *)
Lemma catalog_without_languages (code : Z) (s : Screen) :
  response_ok (mkResponse code (Resolved (@None (list Language)))) = true ->
  languages (react (fst (languages_loaded
     (Resolved (mkResponse code (Resolved None))) s))) = [] /\
  languages (react (fst (languages_loaded
     (Resolved (mkResponse code Rejected)) s))) = defaultLanguages.
Proof.
  unfold languages_loaded, response_ok. simpl.
  destruct ((200 <=? code)%Z && (code <=? 299)%Z); [|discriminate].
  split; reflexivity.
Qed.

(** ** The duration read-out *)

Lemma duration_commit (before s : Screen) :
  duration (commit before s) = duration s.
Proof.
  open_screen s. unfold duration. open_pieces.
  repeat (cbn; try break_match); reflexivity.
Qed.

Lemma duration_cleanupRecording (k : AfterCleanup) (s : Screen) :
  duration (fst (cleanupRecording k s)) = duration s.
Proof.
  open_screen s. unfold duration. open_pieces.
  repeat (cbn; try break_match); reflexivity.
Qed.

Lemma duration_unmount (s : Screen) : duration (fst (unmount s)) = duration s.
Proof.
  unfold unmount.
  pose proof (duration_cleanupRecording ThenReturn (set_isMountedRef false s)) as H.
  destruct (cleanupRecording ThenReturn (set_isMountedRef false s)) as [s1 p].
  simpl in H. unfold duration in *. open_pieces.
  repeat (cbn; try break_match); exact H.
Qed.

Lemma duration_handle (e : Event) (s : Screen) :
  duration (fst (handle e s)) = duration s + ticks e s.
Proof.
  destruct e; unfold handle, ticks;
    try (rewrite duration_unmount; lia);
    unfold duration; open_pieces;
    repeat (cbn; try break_match); cbn; lia.
Qed.

Lemma duration_step (e : Event) (s : Screen) :
  duration (step e s) = duration s + ticks e s.
Proof.
  unfold step. pose proof (duration_handle e s) as H.
  destruct (handle e s) as [s' p]. simpl in H.
  rewrite duration_commit. destruct p; exact H.
Qed.

Lemma duration_run (es : list Event) (s : Screen) :
  duration s <= duration (run es s).
Proof.
  revert s. induction es as [|e es IH]; intros s; [apply le_n|].
  simpl. specialize (IH (step e s)). fold (run es (step e s)) in IH.
  rewrite duration_step in IH. unfold run in *. lia.
Qed.

Lemma duration_settle (o : Oracle) (fuel : nat) (s s' : Screen) :
  In s' (settle o fuel s) -> duration s' = duration s.
Proof.
  revert s. induction fuel as [|fuel IH]; intros s; simpl; [tauto|].
  destruct (tasks (world s)) as [|a rest]; simpl; [tauto|].
  intros [<- | H].
  - rewrite duration_step. simpl. lia.
  - rewrite (IH _ H), duration_step. simpl. lia.
Qed.

Lemma last_in {A} (l : list A) (d : A) : l <> [] -> In (last l d) l.
Proof.
  induction l as [|x l IH]; [congruence|]. intros _.
  destruct l as [|y l]; [left; reflexivity|].
  right. apply IH. discriminate.
Qed.

Lemma duration_call (c : Call) (o : Oracle) (s : Screen) :
  duration (call c o s) = duration s.
Proof.
  unfold call.
  assert (H : In (last (call_trace c o s) s) (call_trace c o s))
    by (apply last_in; discriminate).
  destruct H as [<- | H].
  - rewrite duration_step. destruct c; simpl; lia.
  - rewrite (duration_settle _ _ _ _ H), duration_step. destruct c; simpl; lia.
Qed.

(** C10.  [recordingDuration] is 0 on the fresh screen.  An event adds one
    to it when it is a tick of a running interval and leaves it as it is
    otherwise; so no run of events makes it smaller, and a call of [start()]
    or [stop()] leaves it where the session before left it. *)
Theorem duration_never_reset :
  duration initial = 0 /\
  (forall (e : Event) (s : Screen),
     recordingDuration (react (step e s)) =
     recordingDuration (react s) + ticks e s) /\
  (forall (es : list Event) (s : Screen),
     recordingDuration (react s) <= recordingDuration (react (run es s))) /\
  (forall (c : Call) (o : Oracle) (s : Screen),
     recordingDuration (react (call c o s)) = recordingDuration (react s)).
Proof.
  split; [reflexivity|]. split; [exact duration_step|].
  split; [exact duration_run | exact duration_call].
Qed.

(** Two sessions: three seconds are counted in the first (interval 3), the
    second (interval 7) counts on from 3. *)
Lemma second_session_counts_on :
  let first :=
    run (start_by_button ++ [EvTick 3; EvTick 3; EvTick 3] ++ stop_by_button)%list
      ready in
  let second := run (start_by_button ++ [EvTick 7])%list first in
  duration first = 3 /\ isRecording (react first) = false /\
  isRecording (react second) = true /\ duration second = 4.
Proof. vm_compute. repeat split. Qed.

(** * More of the code *)

(** ** List facts *)

Lemma forallb_filter_keep {A} (f g : A -> bool) (l : list A) :
  forallb f l = true -> forallb f (filter g l) = true.
Proof.
  induction l as [|x l IH]; simpl; [auto|].
  intros H. apply andb_prop in H as [Hx Hl].
  destruct (g x); simpl; [rewrite Hx|]; auto.
Qed.

Lemma forallb_drop_nth_keep {A} (f : A -> bool) (i : nat) (l : list A) :
  forallb f l = true -> forallb f (drop_nth i l) = true.
Proof.
  intros H. unfold drop_nth. rewrite forallb_app.
  rewrite forallb_forall in H.
  apply andb_true_intro. split; apply forallb_forall; intros x I; apply H.
  - rewrite <- (firstn_skipn i l). apply in_or_app. left. exact I.
  - rewrite <- (firstn_skipn (S i) l). apply in_or_app. right. exact I.
Qed.

Lemma forallb_added_keep {A} (f : A -> bool) (l : list A) (x : A) :
  forallb f l = true -> f x = true -> forallb f (l ++ [x]) = true.
Proof. intros H Hx. rewrite forallb_app, H. simpl. rewrite Hx. reflexivity. Qed.

Lemma existsb_drop_nth_back {A} (f : A -> bool) (i : nat) (l : list A) :
  existsb f (drop_nth i l) = true -> existsb f l = true.
Proof.
  unfold drop_nth. intros H. apply existsb_exists in H as (x & I & F).
  apply existsb_exists. exists x. split; [|exact F].
  apply in_app_or in I as [I | I].
  - rewrite <- (firstn_skipn i l). apply in_or_app. left. exact I.
  - rewrite <- (firstn_skipn (S i) l). apply in_or_app. right. exact I.
Qed.

Lemma existsb_nth_here {A} (f : A -> bool) (i : nat) (l : list A) (a : A) :
  nth_error l i = Some a -> f a = true -> existsb f l = true.
Proof.
  intros H F. apply existsb_exists. exists a. split; [|exact F].
  exact (nth_error_In l i H).
Qed.

Lemma count_drop_nth {A} (f : A -> bool) (i : nat) (l : list A) (a : A) :
  nth_error l i = Some a ->
  List.length (filter f l) =
  (if f a then 1 else 0) + List.length (filter f (drop_nth i l)).
Proof.
  unfold drop_nth. revert i. induction l as [|x l IH]; intros [|i]; simpl;
    try discriminate.
  - intros [= ->]. destruct (f a); reflexivity.
  - intros H. specialize (IH i H). simpl in *. destruct (f x); simpl; lia.
Qed.

Lemma nth_error_last_added {A} (l : list A) (x : A) :
  nth_error (l ++ [x]) (List.length l) = Some x.
Proof. induction l; simpl; auto. Qed.

Lemma drop_nth_last_added {A} (l : list A) (x : A) :
  drop_nth (List.length l) (l ++ [x]) = l.
Proof.
  unfold drop_nth. induction l as [|a l IH]; simpl; [reflexivity|].
  f_equal. exact IH.
Qed.

Lemma find_fresh (l : list (nat * Callback)) (n m : nat) (cb : Callback) :
  forallb (fun p => Nat.ltb (fst p) n) l = true -> n <= m ->
  find (fun p => Nat.eqb (fst p) m) (l ++ [(m, cb)]) = Some (m, cb).
Proof.
  intros H L. induction l as [|[k c] l IH]; simpl.
  - rewrite Nat.eqb_refl. reflexivity.
  - simpl in H. apply andb_prop in H as [K H]. apply Nat.ltb_lt in K.
    destruct (Nat.eqb_spec k m); [lia|]. apply IH, H.
Qed.

Lemma filter_fresh (l : list (nat * Callback)) (n m : nat) (cb : Callback) :
  forallb (fun p => Nat.ltb (fst p) n) l = true -> n <= m ->
  filter (fun p => negb (Nat.eqb (fst p) m)) (l ++ [(m, cb)]) = l.
Proof.
  intros H L. induction l as [|[k c] l IH]; simpl.
  - rewrite Nat.eqb_refl. reflexivity.
  - simpl in H. apply andb_prop in H as [K H]. apply Nat.ltb_lt in K.
    destruct (Nat.eqb_spec k m); [lia|]. simpl. rewrite (IH H). reflexivity.
Qed.

Lemma forallb_ltb_weaken (l : list (nat * Callback)) (n : nat) :
  forallb (fun p => Nat.ltb (fst p) n) l = true ->
  forallb (fun p => Nat.ltb (fst p) (S n)) l = true.
Proof.
  intros H. rewrite forallb_forall in *. intros p I.
  specialize (H p I). apply Nat.ltb_lt in H. apply Nat.ltb_lt. lia.
Qed.

Lemma append_length (a b : string) :
  String.length (a ++ b) = String.length a + String.length b.
Proof. induction a; simpl; congruence. Qed.

Lemma append_same_length (a c b d : string) :
  String.length a = String.length c -> a ++ b = c ++ d -> a = c /\ b = d.
Proof.
  revert c. induction a as [|x a IH]; intros [|y c]; simpl; try discriminate.
  - auto.
  - intros L E. injection L as L. injection E as -> E.
    destruct (IH c L E) as [-> ->]. auto.
Qed.

(** ** formatTime *)

Lemma decimal_read (n : nat) : read_decimal (decimal n) = n.
Proof.
  unfold read_decimal, decimal. rewrite NilEmpty.usu. apply Unsigned.of_to.
Qed.

Lemma decimal_inj (a b : nat) : decimal a = decimal b -> a = b.
Proof. intros H. rewrite <- (decimal_read a), H. apply decimal_read. Qed.

Lemma seconds_field (k : nat) :
  k < 60 ->
  String.length (padStart 2 "0" (decimal k)) = 2 /\
  read_decimal (padStart 2 "0" (decimal k)) = k.
Proof.
  intros H.
  assert (A : forallb (fun k =>
            Nat.eqb (String.length (padStart 2 "0" (decimal k))) 2 &&
            Nat.eqb (read_decimal (padStart 2 "0" (decimal k))) k) (seq 0 60) = true)
    by (vm_compute; reflexivity).
  rewrite forallb_forall in A. specialize (A k).
  assert (I : In k (seq 0 60)) by (apply in_seq; lia).
  apply A in I. apply andb_prop in I as [L R].
  apply Nat.eqb_eq in L, R. split; assumption.
Qed.

(** X1.  formatTime.  The read-out is the minutes, a colon and a seconds field
    of exactly two characters, and two different durations never have the
    same read-out. *)
Theorem formatTime_distinct :
  (forall n : nat,
     String.length (formatTime n) = String.length (decimal (n / 60)) + 3) /\
  (forall a b : nat, formatTime a = formatTime b -> a = b).
Proof.
  split.
  - intros n. unfold formatTime.
    destruct (seconds_field (n mod 60)) as [L _];
      [apply Nat.mod_upper_bound; lia|].
    rewrite !append_length, L. reflexivity.
  - intros a b. unfold formatTime. intros E.
    destruct (seconds_field (a mod 60)) as [La Ra];
      [apply Nat.mod_upper_bound; lia|].
    destruct (seconds_field (b mod 60)) as [Lb Rb];
      [apply Nat.mod_upper_bound; lia|].
    assert (L : String.length (decimal (a / 60)) = String.length (decimal (b / 60))).
    { assert (E' := f_equal String.length E).
      rewrite !append_length, La, Lb in E'. lia. }
    destruct (append_same_length _ _ _ _ L E) as [M S].
    apply decimal_inj in M.
    destruct (append_same_length ":" ":" _ _ eq_refl S) as [_ S'].
    assert (a mod 60 = b mod 60) by (rewrite <- Ra, <- Rb, S'; reflexivity).
    rewrite (Nat.div_mod_eq a 60), (Nat.div_mod_eq b 60). lia.
Qed.

Lemma formatTime_distinct_witness :
  formatTime 125 = formatTime (2 * 60 + 5) /\ 125 = 2 * 60 + 5.
Proof.
  split; [reflexivity|].
  apply (proj2 formatTime_distinct 125 (2 * 60 + 5)). reflexivity.
Defined.

Lemma formatTime_examples :
  formatTime 0 = "0:00" /\ formatTime 7 = "0:07" /\ formatTime 65 = "1:05" /\
  formatTime 600 = "10:00".
Proof. repeat split. Qed.

(** ** getLanguageName and the locales *)

(** X2.  getLanguageName.  A code that no catalog entry has is shown as it is. *)
Theorem getLanguageName_unknown_code :
  forall (code : string) (s : Screen),
    (forall l, In l (languages (react s)) -> lang_code l <> code) ->
    getLanguageName code s = code.
Proof.
  intros code s H. unfold getLanguageName.
  destruct (find _ _) as [l|] eqn:E; [|reflexivity].
  apply find_some in E as [I Q]. apply String.eqb_eq in Q.
  destruct (H l I Q).
Qed.

Lemma getLanguageName_unknown_code_witness :
  (forall l, In l (languages (react initial)) -> lang_code l <> "zu") /\
  getLanguageName "zu" initial = "zu".
Proof.
  assert (H : forall l, In l (languages (react initial)) -> lang_code l <> "zu")
    by (intros l []).
  split; [exact H|].
  exact (getLanguageName_unknown_code "zu" initial H).
Defined.

(** X3.  getLanguageName.  In a catalog without two entries for one code, the
    code of an entry is shown as the name of that entry. *)
Theorem getLanguageName_of_catalog :
  forall (l : Language) (s : Screen),
    In l (languages (react s)) ->
    NoDup (map lang_code (languages (react s))) ->
    getLanguageName (lang_code l) s = lang_name l.
Proof.
  intros l s. unfold getLanguageName.
  induction (languages (react s)) as [|x xs IH]; simpl; [tauto|].
  intros [-> | I] N; inversion N as [|? ? Hx Hxs]; subst.
  - rewrite String.eqb_refl. reflexivity.
  - destruct (String.eqb (lang_code x) (lang_code l)) eqn:E.
    + apply String.eqb_eq in E. exfalso. apply Hx. rewrite E.
      apply in_map. exact I.
    + apply IH; assumption.
Qed.

Lemma getLanguageName_of_catalog_witness :
  In (mkLanguage 2 "xh" "isiXhosa") (languages (react ready)) /\
  NoDup (map lang_code (languages (react ready))) /\
  getLanguageName "xh" ready = "isiXhosa".
Proof.
  assert (I : In (mkLanguage 2 "xh" "isiXhosa") (languages (react ready)))
    by (right; left; reflexivity).
  assert (N : NoDup (map lang_code (languages (react ready)))).
  { repeat constructor; simpl; intuition discriminate. }
  split; [exact I|]. split; [exact N|].
  exact (getLanguageName_of_catalog (mkLanguage 2 "xh" "isiXhosa") ready I N).
Defined.

(** X4.  speakTranslatedText and the fallback catalog.  Each of the four default
    languages is spoken in its own locale, its code followed by "-ZA"; a
    target that is none of the four is spoken as "en-US". *)
Theorem default_languages_have_locales :
  (forall l, In l defaultLanguages ->
     languageCode (lang_code l) = lang_code l ++ "-ZA") /\
  (forall target,
     ~ In target (map lang_code defaultLanguages) ->
     languageCode target = "en-US").
Proof.
  split.
  - intros l I. simpl in I.
    destruct I as [<- | [<- | [<- | [<- | []]]]]; reflexivity.
  - intros t H. unfold languageCode. simpl in H.
    destruct (String.eqb t "zu") eqn:E1;
      [apply String.eqb_eq in E1; subst; exfalso; apply H; auto 6|].
    destruct (String.eqb t "xh") eqn:E2;
      [apply String.eqb_eq in E2; subst; exfalso; apply H; auto 6|].
    destruct (String.eqb t "af") eqn:E3;
      [apply String.eqb_eq in E3; subst; exfalso; apply H; auto 6|].
    destruct (String.eqb t "st") eqn:E4;
      [apply String.eqb_eq in E4; subst; exfalso; apply H; auto 6|].
    reflexivity.
Qed.

Lemma default_languages_have_locales_witness :
  languageCode "st" = "st-ZA" /\ languageCode "ts" = "en-US".
Proof.
  split.
  - apply (proj1 default_languages_have_locales (mkLanguage 4 "st" "Sesotho")).
    simpl. auto.
  - apply (proj2 default_languages_have_locales "ts").
    simpl. intuition discriminate.
Defined.

(** ** handleTranslate and blank text *)

Lemma white2_lead (c1 c2 : ascii) :
  is_white2 c1 c2 = true -> is_white c1 = false.
Proof.
  unfold is_white2, is_white. intros H.
  apply andb_prop in H as [H _]. apply Nat.eqb_eq in H. rewrite H. reflexivity.
Qed.

Lemma white3_lead (c1 c2 c3 : ascii) :
  is_white3 c1 c2 c3 = true -> is_white c1 = false /\ is_white2 c1 c2 = false.
Proof.
  unfold is_white3, is_white2, is_white.
  destruct (Nat.eqb (nat_of_ascii c1) 225) eqn:E1;
    [apply Nat.eqb_eq in E1; rewrite E1; intros _; split; reflexivity|].
  destruct (Nat.eqb (nat_of_ascii c1) 226) eqn:E2;
    [apply Nat.eqb_eq in E2; rewrite E2; intros _; split; reflexivity|].
  destruct (Nat.eqb (nat_of_ascii c1) 227) eqn:E3;
    [apply Nat.eqb_eq in E3; rewrite E3; intros _; split; reflexivity|].
  destruct (Nat.eqb (nat_of_ascii c1) 239) eqn:E4;
    [apply Nat.eqb_eq in E4; rewrite E4; intros _; split; reflexivity|].
  simpl. discriminate.
Qed.

(** What is left once the white space at the start is taken off does not
    start with white space. *)
Lemma trim_start_blank_n (n : nat) :
  forall s, String.length s <= n -> (trim_start s = "" <-> blank s = true).
Proof.
  unfold trim_start.
  induction n as [|n IH]; intros s L.
  - destruct s; [simpl; tauto | simpl in L; lia].
  - destruct s as [|c1 r1]; [simpl; tauto|]. simpl in L. simpl.
    destruct (is_white c1); [apply IH; lia|].
    destruct r1 as [|c2 r2]; [split; discriminate|]. simpl in L.
    destruct (is_white2 c1 c2); [apply IH; lia|].
    destruct r2 as [|c3 r3]; [split; discriminate|]. simpl in L.
    destruct (is_white3 c1 c2 c3); [apply IH; lia | split; discriminate].
Qed.

Lemma trim_start_empty (s : string) : trim_start s = "" <-> blank s = true.
Proof. exact (trim_start_blank_n (String.length s) s (le_n _)). Qed.

Lemma blank_append_n (n : nat) :
  forall a b, String.length a <= n -> blank a = true -> blank (a ++ b) = blank b.
Proof.
  induction n as [|n IH]; intros a b L B.
  - destruct a; [reflexivity | simpl in L; lia].
  - destruct a as [|c1 r1]; [reflexivity|]. simpl in L, B |- *.
    destruct (is_white c1); [apply IH; [lia | exact B]|].
    destruct r1 as [|c2 r2]; [discriminate|]. simpl in L |- *.
    destruct (is_white2 c1 c2); [apply IH; [lia | exact B]|].
    destruct r2 as [|c3 r3]; [discriminate|]. simpl in L |- *.
    destruct (is_white3 c1 c2 c3); [|discriminate]. simpl in B |- *.
    apply IH; [lia | exact B].
Qed.

Lemma blank_append (a b : string) :
  blank a = true -> blank b = true -> blank (a ++ b) = true.
Proof.
  intros A B. rewrite (blank_append_n (String.length a) a b (le_n _) A). exact B.
Qed.

Lemma string_append_assoc (a b c : string) : (a ++ b) ++ c = a ++ (b ++ c).
Proof. induction a as [|x a IH]; simpl; [reflexivity | rewrite IH; reflexivity]. Qed.

Lemma string_append_empty (a : string) : a ++ "" = a.
Proof. induction a as [|x a IH]; simpl; [reflexivity | rewrite IH; reflexivity]. Qed.

Lemma string_rev_onto_append (s acc : string) :
  string_rev_onto s acc = string_rev s ++ acc.
Proof.
  unfold string_rev. revert acc.
  induction s as [|c s IH]; intros acc; [reflexivity|]. simpl.
  rewrite IH, (IH (String c "")).
  rewrite string_append_assoc. reflexivity.
Qed.

Lemma string_rev_onto_twice (s a b : string) :
  string_rev_onto (string_rev_onto s a) b = string_rev_onto a (s ++ b).
Proof.
  revert a b. induction s as [|c s IH]; intros a b; [reflexivity|].
  simpl. rewrite IH. reflexivity.
Qed.

Lemma string_rev_involutive (s : string) : string_rev (string_rev s) = s.
Proof.
  unfold string_rev. rewrite string_rev_onto_twice. simpl.
  apply string_append_empty.
Qed.

Lemma string_rev_empty (s : string) : string_rev s = "" -> s = "".
Proof.
  intros H. rewrite <- (string_rev_involutive s), H. reflexivity.
Qed.

(** What the reversed string loses at its start is white space of the
    string, at its end. *)
Lemma trim_start_reversed_blank_n (n : nat) :
  forall u, String.length u <= n ->
    trim_start_reversed u = "" -> blank (string_rev u) = true.
Proof.
  unfold trim_start_reversed.
  induction n as [|n IH]; intros u L.
  - destruct u; [reflexivity | simpl in L; lia].
  - destruct u as [|c1 r1]; [reflexivity|]. simpl in L. simpl strip.
    destruct (is_white c1) eqn:W1.
    { intros H. unfold string_rev. simpl. rewrite string_rev_onto_append.
      apply blank_append; [apply IH; [lia | exact H]|]. simpl. rewrite W1.
      reflexivity. }
    destruct r1 as [|c2 r2]; [discriminate|]. simpl in L.
    destruct (is_white2 c2 c1) eqn:W2.
    { intros H. unfold string_rev. simpl. rewrite string_rev_onto_append.
      apply blank_append; [apply IH; [lia | exact H]|]. simpl.
      rewrite (white2_lead _ _ W2), W2. reflexivity. }
    destruct r2 as [|c3 r3]; [discriminate|]. simpl in L.
    destruct (is_white3 c3 c2 c1) eqn:W3; [|discriminate].
    intros H. unfold string_rev. simpl. rewrite string_rev_onto_append.
    apply blank_append; [apply IH; [lia | exact H]|]. simpl.
    destruct (white3_lead _ _ _ W3) as [A B]. rewrite A, B, W3. reflexivity.
Qed.

Lemma trim_start_idempotent_n (n : nat) :
  forall s, String.length s <= n -> trim_start (trim_start s) = trim_start s.
Proof.
  unfold trim_start.
  induction n as [|n IH]; intros s L.
  - destruct s; [reflexivity | simpl in L; lia].
  - destruct s as [|c1 r1]; [reflexivity|]. simpl in L. simpl strip at 2 3.
    destruct (is_white c1) eqn:W1; [apply IH; lia|].
    destruct r1 as [|c2 r2]; [simpl; rewrite W1; reflexivity|]. simpl in L.
    destruct (is_white2 c1 c2) eqn:W2; [apply IH; lia|].
    destruct r2 as [|c3 r3]; [simpl; rewrite W1, W2; reflexivity|]. simpl in L.
    destruct (is_white3 c1 c2 c3) eqn:W3; [apply IH; lia|].
    simpl. rewrite W1, W2, W3. reflexivity.
Qed.

(** [trim] leaves nothing exactly of the strings that are all white space. *)
Lemma trim_empty (s : string) : trim s = "" <-> blank s = true.
Proof.
  unfold trim. split.
  - intros H. apply string_rev_empty in H.
    apply (trim_start_reversed_blank_n _ _ (le_n _)) in H.
    rewrite string_rev_involutive in H.
    apply trim_start_empty in H.
    rewrite (trim_start_idempotent_n _ _ (le_n _)) in H.
    apply trim_start_empty. exact H.
  - intros H. apply trim_start_empty in H. rewrite H. reflexivity.
Qed.

Lemma truthy_trim (s : string) : truthy (trim s) = negb (blank s).
Proof.
  unfold truthy. destruct (blank s) eqn:B.
  - apply trim_empty in B. rewrite B. reflexivity.
  - destruct (String.eqb (trim s) "") eqn:E; [|reflexivity].
    apply String.eqb_eq, trim_empty in E. congruence.
Qed.

(** X5.  handleTranslate.  A text that is empty or all white space, in the
    sense of [trim] (the white space and line terminators of JavaScript, the
    no-break space and the other ones beyond ASCII included), is refused with
    "Please enter text to translate" and nothing is sent; on a mounted screen
    any other text is sent as it is, leading and trailing white space
    included, with source "en". *)
Theorem translate_refuses_blank_text :
  forall (r : Render) (s : Screen),
    (blank (r_inputText r) = true ->
     handleTranslate r s =
     (emit (Alert "Error" "Please enter text to translate") s, None)) /\
    (blank (r_inputText r) = false -> isMountedRef (refs s) = true ->
     snd (handleTranslate r s) = Some (AwTranslate r) /\
     log (world (fst (handleTranslate r s))) =
       (log (world s) ++
        [PostTranslate (r_inputText r) "en" (r_targetLanguage r)])%list).
Proof.
  intros r s. unfold handleTranslate. rewrite truthy_trim, negb_involutive.
  split.
  - intros ->. reflexivity.
  - intros -> ->. split; reflexivity.
Qed.

Lemma translate_refuses_blank_text_witness :
  snd (handleTranslate (mkRender "  " "" "zu" true) ready) = None /\
  snd (handleTranslate (mkRender (no_break_space ++ " ") "" "zu" true) ready) =
    None /\
  log (world (fst (handleTranslate (mkRender " Thank you " "" "zu" true) ready))) =
    (log (world ready) ++ [PostTranslate " Thank you " "en" "zu"])%list.
Proof.
  split; [|split].
  - rewrite (proj1 (translate_refuses_blank_text
                      (mkRender "  " "" "zu" true) ready) eq_refl).
    reflexivity.
  - rewrite (proj1 (translate_refuses_blank_text
                      (mkRender (no_break_space ++ " ") "" "zu" true) ready)
               eq_refl).
    reflexivity.
  - exact (proj2 (proj2 (translate_refuses_blank_text
                           (mkRender " Thank you " "" "zu" true) ready)
                    eq_refl eq_refl)).
Defined.

(** ** Without the permission *)

Lemma commit_keeps (before s : Screen) :
  react (commit before s) = react s /\
  recordingRef (refs (commit before s)) = recordingRef (refs s) /\
  recordingTimeoutRef (refs (commit before s)) = recordingTimeoutRef (refs s) /\
  isRecordingRef (refs (commit before s)) = isRecordingRef (refs s) /\
  isMountedRef (refs (commit before s)) = isMountedRef (refs s) /\
  native (world (commit before s)) = native (world s) /\
  tasks (world (commit before s)) = tasks (world s) /\
  timers (world (commit before s)) = timers (world s) /\
  dialogs (world (commit before s)) = dialogs (world s) /\
  log (world (commit before s)) = log (world s).
Proof.
  open_screen s. open_pieces.
  repeat (cbn; try break_match); repeat split.
Qed.

Lemma handle_denied (e : Event) (s : Screen) :
  microphone_denied s ->
  microphone_denied (fst (handle e s)) /\
  match snd (handle e s) with Some a => quiet_task a = true | None => True end.
Proof.
  intros H. open_screen s. unfold microphone_denied in *. simpl in H.
  destruct H as (-> & HL & -> & -> & -> & HT & HM).
  destruct e; unfold handle, unmount; open_pieces;
    repeat (cbn; try break_match);
    try (quiet_found HT HM; discriminate);
    cbn; repeat split;
    try (unfold recorder_calls in *; rewrite ?filter_app, ?HL; reflexivity);
    auto using forallb_filter_keep, forallb_drop_nth_keep, forallb_added_keep.
Qed.

Lemma step_denied (e : Event) (s : Screen) :
  microphone_denied s -> microphone_denied (step e s).
Proof.
  intros H. destruct (handle_denied e s H) as [H1 H2].
  unfold step. destruct (handle e s) as [s' p]. simpl in H1, H2.
  unfold microphone_denied in *.
  destruct (commit_keeps s (match p with
                            | Some a => set_tasks (tasks (world s') ++ [a]) s'
                            | None => s' end))
    as (R & RR & _ & IR & _ & N & T & M & _ & L).
  rewrite R, RR, IR, N, T, M, L.
  destruct H1 as (A & A' & B & C & D & E & F).
  destruct p as [a|]; simpl; repeat split; auto using forallb_added_keep.
Qed.

(** X6.  startRecording, handleVoiceTranslate and the record button.  While the
    microphone permission is not granted and no permission request is out,
    nothing that happens to the screen (presses, calls of start() and stop(),
    timers, answers, unmount) makes a call on a recorder or brings one into
    being, and the permission stays refused. *)
Theorem no_recording_without_permission :
  forall (es : list Event) (s : Screen),
    microphone_denied s ->
    microphone_denied (run es s).
Proof.
  induction es as [|e es IH]; intros s H; [exact H|].
  apply (IH (step e s)). apply step_denied. exact H.
Qed.

Lemma no_recording_without_permission_witness :
  microphone_denied denied /\
  recorder_calls
    (log (world (run [EvPressVoice; EvStart; EvResume 0 (AnsUnit ok)] denied))) = [] /\
  native (world (run [EvPressVoice; EvStart; EvResume 0 (AnsUnit ok)] denied)) = [].
Proof.
  assert (H : microphone_denied denied) by (repeat split).
  split; [exact H|].
  pose proof (no_recording_without_permission
                [EvPressVoice; EvStart; EvResume 0 (AnsUnit ok)] denied H) as P.
  split; [exact (proj1 (proj2 P)) | exact (proj1 (proj2 (proj2 P)))].
Defined.

(** ** The display interval *)

Lemma handle_keeps_interval (e : Event) (s : Screen) :
  e <> EvUnmount ->
  intervals (world (fst (handle e s))) = intervals (world s) /\
  durationIntervalRef (refs (fst (handle e s))) = durationIntervalRef (refs s) /\
  isMountedRef (refs (fst (handle e s))) = isMountedRef (refs s) /\
  (isMountedRef (refs s) = false ->
   isRecording (react (fst (handle e s))) = isRecording (react s)).
Proof.
  intros H. open_screen s.
  destruct e; try congruence; unfold handle; open_pieces;
    repeat (cbn; try break_match); repeat split; intros; congruence.
Qed.

Lemma cleanup_keeps_interval (k : AfterCleanup) (s : Screen) :
  intervals (world (fst (cleanupRecording k s))) = intervals (world s) /\
  durationIntervalRef (refs (fst (cleanupRecording k s))) =
    durationIntervalRef (refs s) /\
  isMountedRef (refs (fst (cleanupRecording k s))) = isMountedRef (refs s).
Proof.
  open_screen s. open_pieces. repeat (cbn; try break_match); repeat split.
Qed.

Lemma unmount_stops_interval (s : Screen) :
  interval_in_step s ->
  intervals (world (fst (unmount s))) = [] /\
  isMountedRef (refs (fst (unmount s))) = false.
Proof.
  unfold unmount, interval_in_step.
  pose proof (cleanup_keeps_interval ThenReturn (set_isMountedRef false s))
    as (I & D & M).
  destruct (cleanupRecording ThenReturn (set_isMountedRef false s)) as [s1 p].
  simpl in I, D, M. intros H.
  assert (Hi : intervals (world s1) = [] \/
               exists i, intervals (world s1) = [i] /\
                         durationIntervalRef (refs s1) = Some i).
  { rewrite I, D. destruct (isMountedRef (refs s) && isRecording (react s)); auto. }
  clear H I D. open_screen s1. simpl in *.
  destruct Hi as [-> | (i & -> & ->)]; open_pieces; subst;
    destruct recordingTimeoutRef0; try destruct durationIntervalRef0;
    cbn; rewrite ?Nat.eqb_refl; cbn; split; reflexivity.
Qed.

Lemma commit_interval (before s : Screen) :
  interval_in_step before ->
  intervals (world s) = intervals (world before) ->
  durationIntervalRef (refs s) = durationIntervalRef (refs before) ->
  isMountedRef (refs s) = isMountedRef (refs before) ->
  (isMountedRef (refs before) = false ->
   isRecording (react s) = isRecording (react before)) ->
  interval_in_step (commit before s).
Proof.
  unfold interval_in_step. open_screen s. open_screen before. simpl.
  intros H -> -> -> R. open_pieces.
  destruct isMountedRef1, isRecording1, isRecording0; simpl in *;
    try (specialize (R eq_refl); discriminate);
    try destruct H as (i & -> & ->); subst;
    try destruct durationIntervalRef1;
    cbn; rewrite ?Nat.eqb_refl; cbn; eauto.
Qed.

Lemma step_interval (e : Event) (s : Screen) :
  interval_in_step s -> interval_in_step (step e s).
Proof.
  intros H. unfold step.
  assert (D : e = EvUnmount \/ e <> EvUnmount)
    by (destruct e; auto; right; discriminate).
  destruct D as [-> | Hne].
  - destruct (unmount_stops_interval s H) as [I M].
    simpl handle. destruct (unmount s) as [s' p]. simpl in I, M.
    unfold commit, interval_in_step.
    destruct p; simpl; rewrite M; simpl; rewrite M; simpl; exact I.
  - destruct (handle_keeps_interval e s Hne) as (I & D & M & R).
    destruct (handle e s) as [s' p]. simpl in I, D, M, R.
    apply commit_interval; try assumption; destruct p; assumption.
Qed.

Lemma run_interval (es : list Event) (s : Screen) :
  interval_in_step s -> interval_in_step (run es s).
Proof.
  revert s. induction es as [|e es IH]; intros s H; [exact H|].
  apply (IH (step e s)). apply step_interval. exact H.
Qed.

(** X7.  The effect on [isRecording].  Whatever happens to the mounted screen,
    the one-second interval runs exactly while the screen is mounted and
    shows the recording, there is never more than one, and so the duration
    only goes up on a mounted screen that shows the recording. *)
Theorem display_interval_runs_while_recording :
  forall (es : list Event),
    interval_in_step (run es (mount initial)) /\
    (forall i, ticks (EvTick i) (run es (mount initial)) = 1 ->
       isMountedRef (refs (run es (mount initial))) = true /\
       isRecording (react (run es (mount initial))) = true).
Proof.
  intros es.
  assert (H : interval_in_step (run es (mount initial)))
    by (apply run_interval; reflexivity).
  split; [exact H|].
  intros i T. unfold interval_in_step in H. simpl in T.
  destruct (isMountedRef (refs (run es (mount initial)))),
    (isRecording (react (run es (mount initial)))); simpl in H;
    try (rewrite H in T; discriminate).
  split; reflexivity.
Qed.

Lemma display_interval_runs_while_recording_witness :
  let es := ([ EvResume 0 (AnsCatalog (o_catalog all_well));
               EvResume 0 (AnsPermission (o_permission all_well));
               EvResume 0 (AnsUnit ok) ] ++ start_by_button)%list in
  ticks (EvTick 3) (run es (mount initial)) = 1 /\
  isMountedRef (refs (run es (mount initial))) = true /\
  isRecording (react (run es (mount initial))) = true.
Proof.
  cbv zeta.
  assert (T : ticks (EvTick 3)
                (run ([ EvResume 0 (AnsCatalog (o_catalog all_well));
                        EvResume 0 (AnsPermission (o_permission all_well));
                        EvResume 0 (AnsUnit ok) ] ++ start_by_button)%list
                   (mount initial)) = 1)
    by (vm_compute; reflexivity).
  split; [exact T|].
  exact (proj2 (display_interval_runs_while_recording
                  ([ EvResume 0 (AnsCatalog (o_catalog all_well));
                     EvResume 0 (AnsPermission (o_permission all_well));
                     EvResume 0 (AnsUnit ok) ] ++ start_by_button)%list) 3 T).
Defined.

(** ** The target language *)

Lemma chip_is_not_english (code : string) (s : Screen) :
  language_chip_shown code s = true -> code <> "en".
Proof.
  unfold language_chip_shown. intros H.
  apply existsb_exists in H as (l & I & E).
  apply filter_In in I as [_ N]. apply String.eqb_eq in E. subst code.
  intros C. rewrite C in N. discriminate.
Qed.

Lemma handle_target (e : Event) (s : Screen) :
  targetLanguage (react (fst (handle e s))) = targetLanguage (react s) \/
  exists code, e = EvSelectLanguage code /\ language_chip_shown code s = true /\
               targetLanguage (react (fst (handle e s))) = code.
Proof.
  destruct e; try (left; open_screen s; unfold handle, unmount; open_pieces;
                   repeat (cbn; try break_match); reflexivity).
  unfold handle, gesture.
  destruct (isMountedRef (refs s) && language_chip_shown code s) eqn:E.
  - right. exists code. apply andb_prop in E as [_ E]. auto.
  - left. reflexivity.
Qed.

Lemma step_target (e : Event) (s : Screen) :
  targetLanguage (react s) <> "en" -> targetLanguage (react (step e s)) <> "en".
Proof.
  intros H. unfold step. pose proof (handle_target e s) as T.
  destruct (handle e s) as [s' p]. simpl in T.
  destruct (commit_keeps s (match p with
                            | Some a => set_tasks (tasks (world s') ++ [a]) s'
                            | None => s' end)) as (R & _).
  rewrite R.
  assert (R' : react (match p with
                      | Some a => set_tasks (tasks (world s') ++ [a]) s'
                      | None => s' end) = react s') by (destruct p; reflexivity).
  rewrite R'. destruct T as [-> | (code & _ & C & ->)]; [exact H|].
  exact (chip_is_not_english code s C).
Qed.

(** X8.  The language chips.  The target language starts as "zu" and, whatever
    the catalog holds and whatever happens to the screen, is never "en", the
    source language: the chip for "en" is filtered out. *)
Theorem target_language_never_english :
  forall (es : list Event),
    targetLanguage (react (run es (mount initial))) <> "en".
Proof.
  assert (G : forall es s, targetLanguage (react s) <> "en" ->
                           targetLanguage (react (run es s)) <> "en").
  { induction es as [|e es IH]; intros s H; [exact H|].
    apply (IH (step e s)), step_target, H. }
  intros es. apply G. discriminate.
Qed.

(** ** From the recording to the translation *)

Lemma phrases_truthy (i : nat) (text : string) :
  nth_error commonPhrases i = Some text -> truthy text = true.
Proof.
  intros H. apply nth_error_In in H.
  assert (A : forallb truthy commonPhrases = true) by reflexivity.
  rewrite forallb_forall in A. exact (A _ H).
Qed.

(** X9.  processRecordedAudio and simulateSpeechRecognition.  With an index
    inside the phrase list, as [Math.floor(Math.random() * length)] always
    is, the recognition on a mounted screen always hears a phrase of the
    list: it is written into the input field, its dialog is scheduled,
    [isTranscribing] goes down and the "Could not understand speech" alert is
    not raised. *)
Theorem recognition_hears_a_phrase :
  forall (r : Render) (i : nat) (s : Screen),
    i < List.length commonPhrases ->
    isMountedRef (refs s) = true ->
    nth_error commonPhrases i = Some (inputText (react (fst (recognized r i s)))) /\
    isTranscribing (react (fst (recognized r i s))) = false /\
    log (world (fst (recognized r i s))) = log (world s) /\
    timers (world (fst (recognized r i s))) =
      (timers (world s) ++
       [(nextId (world s),
         CbShowDetected r (inputText (react (fst (recognized r i s)))))])%list.
Proof.
  intros r i s Hi Hm.
  destruct (nth_error commonPhrases i) as [text|] eqn:E.
  - pose proof (phrases_truthy i text E) as T.
    open_screen s. simpl in Hm. subst.
    unfold recognized. rewrite E, T. repeat split.
  - apply nth_error_None in E. lia.
Qed.

Lemma recognition_hears_a_phrase_witness :
  3 < List.length commonPhrases /\
  isMountedRef (refs ready) = true /\
  inputText (react (fst (recognized (render_of ready) 3 ready))) = "Thank you".
Proof.
  split; [simpl; lia|]. split; [reflexivity|].
  pose proof (recognition_hears_a_phrase (render_of ready) 3 ready
                ltac:(simpl; lia) eq_refl) as P.
  apply proj1 in P.
  exact (f_equal (fun o => match o with Some t => t | None => "" end) (eq_sym P)).
Defined.

Lemma commit_same (before s : Screen) :
  isRecording (react s) = isRecording (react before) -> commit before s = s.
Proof.
  unfold commit. intros ->. rewrite eqb_reflx.
  destruct (negb (isMountedRef (refs s))); reflexivity.
Qed.

(** The timer that was armed last fires. *)
Lemma last_timer_fires (s : Screen) (l : list (nat * Callback)) (m : nat)
    (cb : Callback) :
  timers (world s) = (l ++ [(m, cb)])%list ->
  forallb (fun p => Nat.ltb (fst p) m) l = true ->
  handle (EvTimer m) s = run_callback cb (set_timers l s).
Proof.
  intros T F. unfold handle, clearTimeout. rewrite T.
  rewrite (find_fresh l m m cb F (le_n m)).
  rewrite (filter_fresh l m m cb F (le_n m)). reflexivity.
Qed.

(** X10.  processRecordedAudio, its dialog and handleTranslate.  A recognition
    is out for a recording that was stopped in render [r].  When it comes in,
    the phrase is written into the input field and, 100 ms later, shown in
    the "Voice Input" dialog, after [Detected: ] and between double quotes;
    "Translate" there runs, 500 ms later,
    [handleTranslate] of render [r].  What is translated is the input text of
    [r], from before the phrase was heard, and when that was blank nothing is
    sent and "Please enter text to translate" is raised. *)
Theorem voice_dialog_translates_render_text :
  forall (j i : nat) (r : Render) (text : string) (s : Screen),
    nth_error (tasks (world s)) j = Some (AwRecognition r) ->
    nth_error commonPhrases i = Some text ->
    isMountedRef (refs s) = true ->
    timers_fresh s = true ->
    inputText (react
      (run [ EvResume j (AnsPhrase i);
             EvTimer (nextId (world s));
             EvDialogTranslate (List.length (dialogs (world s)));
             EvTimer (S (nextId (world s))) ] s)) = text /\
    log (world
      (run [ EvResume j (AnsPhrase i);
             EvTimer (nextId (world s));
             EvDialogTranslate (List.length (dialogs (world s)));
             EvTimer (S (nextId (world s))) ] s)) =
      (log (world s) ++
       [ Alert "Voice Input" (detected text);
         if blank (r_inputText r) then
           Alert "Error" "Please enter text to translate"
         else PostTranslate (r_inputText r) "en" (r_targetLanguage r) ])%list.
Proof.
  intros j i r text s Ht Hp Hm Hf.
  pose proof (phrases_truthy i text Hp) as Htr.
  unfold timers_fresh in Hf.
  (* the recognition comes in *)
  set (s1 := setIsTranscribing false
               (setTimeout (CbShowDetected r text)
                  (setInputText text
                     (set_tasks (drop_nth j (tasks (world s))) s)))).
  assert (E1 : step (EvResume j (AnsPhrase i)) s = s1).
  { unfold step, handle. rewrite Ht. unfold resume, recognized.
    rewrite Hp, Htr. cbn [refs set_tasks on_world isMountedRef]. rewrite Hm.
    apply commit_same. reflexivity. }
  (* the 100 ms timer shows the dialog *)
  set (s2 := show_detected r text (set_timers (timers (world s)) s1)).
  assert (E2 : step (EvTimer (nextId (world s))) s1 = s2).
  { unfold step.
    rewrite (last_timer_fires s1 (timers (world s)) (nextId (world s))
               (CbShowDetected r text) eq_refl Hf).
    cbn [run_callback done]. apply commit_same. unfold s2, show_detected.
    change (isMountedRef (refs (set_timers (timers (world s)) s1)))
      with (isMountedRef (refs s)).
    rewrite Hm. reflexivity. }
  (* "Translate" in the dialog arms the 500 ms timer *)
  set (s3 := setTimeout (CbTranslate r) (set_dialogs (dialogs (world s)) s2)).
  assert (D2 : dialogs (world s2) = (dialogs (world s) ++ [r])%list).
  { unfold s2, show_detected. cbn [refs set_timers on_world].
    change (isMountedRef (refs s1)) with (isMountedRef (refs s)).
    rewrite Hm. reflexivity. }
  assert (E3 : step (EvDialogTranslate (List.length (dialogs (world s)))) s2 = s3).
  { unfold step, handle. rewrite D2, nth_error_last_added, drop_nth_last_added.
    apply commit_same. reflexivity. }
  (* the 500 ms timer runs handleTranslate of the render *)
  assert (T3 : timers (world s3) =
               (timers (world s) ++ [(S (nextId (world s)), CbTranslate r)])%list).
  { unfold s3, s2, show_detected.
    change (isMountedRef (refs (set_timers (timers (world s)) s1)))
      with (isMountedRef (refs s)).
    rewrite Hm. reflexivity. }
  unfold run. cbn [fold_left]. rewrite E1, E2, E3.
  unfold step.
  rewrite (last_timer_fires s3 (timers (world s)) (S (nextId (world s)))
             (CbTranslate r) T3 (forallb_ltb_weaken _ _ Hf)).
  unfold run_callback, handleTranslate. rewrite truthy_trim, negb_involutive.
  assert (M3 : isMountedRef (refs (set_timers (timers (world s)) s3)) = true).
  { unfold s3, s2, show_detected.
    change (isMountedRef (refs (set_timers (timers (world s)) s1)))
      with (isMountedRef (refs s)).
    rewrite Hm. exact Hm. }
  assert (L3 : log (world (set_timers (timers (world s)) s3)) =
               (log (world s) ++ [Alert "Voice Input" (detected text)])%list).
  { unfold s3, s2, show_detected.
    change (isMountedRef (refs (set_timers (timers (world s)) s1)))
      with (isMountedRef (refs s)).
    rewrite Hm. reflexivity. }
  assert (I3 : inputText (react (set_timers (timers (world s)) s3)) = text).
  { unfold s3, s2, show_detected.
    change (isMountedRef (refs (set_timers (timers (world s)) s1)))
      with (isMountedRef (refs s)).
    rewrite Hm. reflexivity. }
  destruct (blank (r_inputText r)).
  - cbn [done]. rewrite commit_same by reflexivity.
    split; [exact I3|].
    cbn [world log emit set_log on_world]. rewrite L3, <- app_assoc. reflexivity.
  - rewrite M3. cbn [negb park done].
    rewrite commit_same by reflexivity.
    split; [exact I3|].
    cbn [world set_tasks on_world log emit set_log setLoading on_react].
    rewrite L3, <- app_assoc. reflexivity.
Qed.

Lemma voice_dialog_translates_render_text_witness :
  nth_error (tasks (world recognition_waiting)) 0 =
    Some (AwRecognition (mkRender "" "" "zu" true)) /\
  timers_fresh recognition_waiting = true /\
  inputText (react
    (run [ EvResume 0 (AnsPhrase 3); EvTimer 4; EvDialogTranslate 0; EvTimer 5 ]
       recognition_waiting)) = "Thank you" /\
  log (world
    (run [ EvResume 0 (AnsPhrase 3); EvTimer 4; EvDialogTranslate 0; EvTimer 5 ]
       recognition_waiting)) =
    (log (world recognition_waiting) ++
     [ Alert "Voice Input" (detected "Thank you");
       Alert "Error" "Please enter text to translate" ])%list.
Proof.
  assert (H : nth_error (tasks (world recognition_waiting)) 0 =
              Some (AwRecognition (mkRender "" "" "zu" true))) by reflexivity.
  split; [exact H|]. split; [reflexivity|].
  exact (voice_dialog_translates_render_text 0 3 (mkRender "" "" "zu" true)
           "Thank you" recognition_waiting H eq_refl eq_refl eq_refl).
Defined.

(** ** Unmounting, pressing twice, the round trip *)

(** X11.  The unmount effect and cleanupRecording.  Between calls, with a native
    layer that answers, unmounting the screen and letting the cleanup run to
    its end stops and unloads the recorder the screen holds: no native
    recorder is left, the refs are cleared, the auto-stop timer is gone and
    the speech was stopped. *)
Theorem unmount_releases_recorder :
  forall (o : Oracle) (s : Screen),
    owned s -> nominal o = true ->
    let s' := unmounted o s in
    native (world s') = [] /\
    recordingRef (refs s') = None /\
    isRecordingRef (refs s') = false /\
    isMountedRef (refs s') = false /\
    tasks (world s') = [] /\
    (forall t, recordingTimeoutRef (refs s) = Some t ->
       find (fun p => Nat.eqb (fst p) t) (timers (world s')) = None) /\
    In SpeechStop (log (world s')).
Proof.
  intros o s. open_screen s. unfold owned, held. simpl. intros [-> ->].
  destruct o as [st un uri am pr sa ph x y z].
  unfold nominal; simpl.
  destruct st as [[cr sr]|]; [|discriminate].
  destruct un as [[]|]; [|discriminate].
  destruct cr; [|discriminate]. destruct sr; [|discriminate].
  intros _. unfold unmounted.
  destruct recordingRef0 as [rec|], recordingTimeoutRef0 as [t0|],
    durationIntervalRef0, isMountedRef0, isRecording0;
  try (pose proof (Nat.eqb_refl rec) as E; vm_compute in E);
  vm_compute; rewrite ?E; vm_compute;
  repeat split; try discriminate;
  try (intros t [= <-];
       exact (find_after_filter (fun p => Nat.eqb (fst p) t0) timers0));
  try (repeat (apply in_or_app; first [ right; left; reflexivity | left ])).
Qed.

Lemma unmount_releases_recorder_witness :
  owned (run start_by_button ready) /\
  native (world (run start_by_button ready)) <> [] /\
  native (world (unmounted all_well (run start_by_button ready))) = [] /\
  recordingRef (refs (unmounted all_well (run start_by_button ready))) = None.
Proof.
  assert (H : owned (run start_by_button ready))
    by (split; vm_compute; reflexivity).
  split; [exact H|]. split; [vm_compute; discriminate|].
  pose proof (unmount_releases_recorder all_well (run start_by_button ready)
                H eq_refl) as P.
  cbv zeta in P.
  split; [exact (proj1 P) | exact (proj1 (proj2 P))].
Defined.

(** X12.  startRecording and handleVoiceTranslate.  On a screen at rest, two
    presses of the record button before the first start has run start two
    recordings: [isRecordingRef] only goes up after [startAsync], and the
    button is not disabled meanwhile.  When the native layer lets the audio
    mode, [prepareToRecordAsync] and [startAsync] through and both calls
    have run to their end, two native recorders exist and the screen holds
    only the second. *)
Theorem second_press_starts_second_recorder :
  forall (o : Oracle) (s : Screen),
    at_rest s -> starts_well o = true ->
    let s' := pressed_twice o s in
    native (world s') = [S (nextId (world s)); nextId (world s)] /\
    recordingRef (refs s') = Some (S (nextId (world s))) /\
    tasks (world s') = [].
Proof.
  intros o s. open_screen s. unfold at_rest. simpl.
  intros (-> & -> & -> & -> & -> & -> & -> & ->).
  destruct o as [st un uri am pr sa ph x y z].
  unfold starts_well; simpl.
  destruct am as [[]|], pr as [[]|], sa as [[]|]; try discriminate.
  intros _. unfold pressed_twice.
  destruct recordingTimeoutRef0, durationIntervalRef0, isRecording0;
  vm_compute; repeat split.
Qed.

Lemma second_press_starts_second_recorder_witness :
  at_rest ready /\
  List.length (native (world (pressed_twice all_well ready))) = 2.
Proof.
  assert (H : at_rest ready) by (vm_compute; repeat split).
  split; [exact H|].
  pose proof (second_press_starts_second_recorder all_well ready H eq_refl) as P.
  apply proj1 in P. cbv zeta in P. rewrite P. reflexivity.
Defined.

(** X13.  startRecording, stopRecording, processRecordedAudio.  On a screen at
    rest, with a native layer that answers, one press of the record button
    starts a recording and a second press, after the start has run to its
    end, stops it: the one recorder is stopped and unloaded, its file is sent
    to the recognition, and a phrase of the list ends up in the input
    field.  The native calls come in this order and no other is made. *)
Theorem voice_button_round_trip :
  forall (o : Oracle) (uri : string) (s : Screen),
    at_rest s -> starts_well o = true -> nominal o = true ->
    o_uri o = Some uri -> truthy uri = true ->
    o_phrase o < List.length commonPhrases ->
    let s1 := pressed o s in
    let s2 := pressed o s1 in
    recordingRef (refs s1) = Some (nextId (world s)) /\
    native (world s1) = [nextId (world s)] /\
    isRecording (react s1) = true /\
    recordingRef (refs s2) = None /\
    native (world s2) = [] /\
    isRecording (react s2) = false /\
    tasks (world s2) = [] /\
    nth_error commonPhrases (o_phrase o) = Some (inputText (react s2)) /\
    log (world s2) =
      (log (world s) ++
       [ Sleep 300; Vibrate; SetAudioMode;
         Prepare (nextId (world s)); StartAsync (nextId (world s));
         Vibrate; GetStatus (nextId (world s)); StopAndUnload (nextId (world s));
         Transcribe uri ])%list.
Proof.
  intros o uri s. rewrite added_one_by_one.
  open_screen s. unfold at_rest. simpl.
  intros (-> & -> & -> & -> & -> & -> & -> & ->).
  destruct o as [st un ur am pr sa ph x y z].
  unfold starts_well, nominal; simpl.
  destruct am as [[]|], pr as [[]|], sa as [[]|]; try discriminate. intros _.
  destruct st as [[[] []]|], un as [[]|]; simpl; try discriminate.
  intros _ -> T L.
  destruct uri as [|ch uri]; [discriminate|]. clear T.
  unfold pressed.
  pose proof (Nat.eqb_refl nextId0) as E; vm_compute in E.
  split_index 20 ph; [ .. | simpl in L; lia ];
  destruct recordingTimeoutRef0, durationIntervalRef0, isRecording0;
  vm_compute; repeat (rewrite E; vm_compute); repeat split.
Qed.

Lemma voice_button_round_trip_witness :
  at_rest ready /\
  o_phrase all_well < List.length commonPhrases /\
  native (world (pressed all_well ready)) = [nextId (world ready)] /\
  native (world (pressed all_well (pressed all_well ready))) = [] /\
  inputText (react (pressed all_well (pressed all_well ready))) = "Thank you".
Proof.
  assert (H : at_rest ready) by (vm_compute; repeat split).
  assert (L : o_phrase all_well < List.length commonPhrases) by (simpl; lia).
  split; [exact H|]. split; [exact L|].
  pose proof (voice_button_round_trip all_well "file:///recording.m4a" ready
                H eq_refl eq_refl eq_refl eq_refl L) as P.
  cbv zeta in P.
  destruct P as (_ & P1 & _ & _ & P2 & _ & _ & P3 & _).
  split; [exact P1|]. split; [exact P2|].
  exact (f_equal (fun o => match o with Some t => t | None => "" end) (eq_sym P3)).
Defined.

(** ** The App component *)

Lemma app_step_one_auth (e : App.Event) (s : App.State) :
  App.one_auth_request s ->
  App.one_auth_request (App.step e s).
Proof.
  unfold App.one_auth_request, App.auth_pending, App.step.
  intros H. open_app s. simpl in H.
  destruct e.
  13: { unfold App.handle. cbn [App.tasks].
        destruct (nth_error tasks0 i) as [a|] eqn:E; [|exact H].
        pose proof (count_drop_nth
                      (fun a => match a with App.AwCheck => false | _ => true end)
                      _ _ _ E) as C.
        destruct a, ans; cbn; try exact H;
          unfold App.check_answered, App.login_answered, App.register_answered;
          destruct (App.makeRequest reply); cbn;
          destruct loading0; cbn in H, C; lia. }
  all: destruct loading0; open_app_pieces;
    try destruct (App.getCurrentScreen _);
    repeat (cbn; try first [break_if | break_match]); cbn;
    rewrite ?filter_app, ?length_app; cbn; lia.
Qed.

(** X14.  handleLogin, handleRegister and the forms' buttons.  Whatever the user
    does and whatever the server answers, at most one login or registration
    request is out at a time, and exactly one while [loading] is up: the
    buttons are disabled while [loading]. *)
Theorem app_one_auth_request_in_flight :
  forall (es : list App.Event),
    App.one_auth_request (App.run es App.mounted).
Proof.
  assert (G : forall es s, App.one_auth_request s ->
                           App.one_auth_request (App.run es s)).
  { induction es as [|e es IH]; intros s H; [exact H|].
    apply (IH (App.step e s)), app_step_one_auth, H. }
  intros es. apply G. reflexivity.
Qed.

Lemma truthy_nonempty (x : string) : truthy x = true <-> x <> "".
Proof.
  unfold truthy. destruct (String.eqb_spec x ""); simpl; split; congruence.
Qed.

(** X15.  handleLogin.  On the enabled login form, pressing "Login" with an empty
    email or password only raises "Please enter both email and password" and
    sends nothing; with both filled in it raises [loading] and posts exactly
    these two fields. *)
Theorem app_login_requires_both_fields :
  forall (s : App.State),
    App.getCurrentScreen s = App.LoginForm ->
    App.loading s = false ->
    App.apiStatus s = "connected" ->
    (App.email s = "" \/ App.password s = "" ->
     App.step App.PressLogin s =
     App.emit (App.Alert "Error" "Please enter both email and password") s) /\
    (App.email s <> "" -> App.password s <> "" ->
     App.step App.PressLogin s =
     App.set_tasks (App.tasks s ++ [App.AwLogin])
       (App.emit (App.PostLogin (App.email s) (App.password s))
          (App.setLoading true s))).
Proof.
  intros s G L A. unfold App.step, App.handle, App.on_screen.
  rewrite G, L, A. rewrite String.eqb_refl.
  cbn [orb negb]. unfold App.handleLogin. split.
  - intros [E | E]; rewrite E; cbn; [reflexivity|].
    rewrite orb_true_r. reflexivity.
  - intros E P. apply truthy_nonempty in E, P. rewrite E, P. reflexivity.
Qed.

Lemma app_login_requires_both_fields_witness :
  App.getCurrentScreen App.filled_in = App.LoginForm /\
  App.loading App.filled_in = false /\
  App.apiStatus App.filled_in = "connected" /\
  App.log (App.step App.PressLogin App.filled_in) =
    (App.log App.filled_in ++ [App.PostLogin "thabo@example.org" "secret"])%list /\
  App.log (App.step App.PressLogin App.connected) =
    (App.log App.connected ++
     [App.Alert "Error" "Please enter both email and password"])%list.
Proof.
  split; [reflexivity|]. split; [reflexivity|]. split; [reflexivity|].
  split.
  - rewrite (proj2 (app_login_requires_both_fields App.filled_in
                      eq_refl eq_refl eq_refl)) by discriminate.
    reflexivity.
  - rewrite (proj1 (app_login_requires_both_fields App.connected
                      eq_refl eq_refl eq_refl)) by (left; reflexivity).
    reflexivity.
Defined.

(** X16.  handleLogin after its request, and makeRequest.  The answer always
    lowers [loading].  A 2xx answer stores the user of the body and shows the
    translation screen without an alert; any other status leaves screen and
    user as they were and raises "Login Failed" with "HTTP error! status: "
    and the status; a failed fetch raises "Login Failed" with the error's
    message, or "Login failed" when that is empty. *)
Theorem app_login_answer :
  forall (i : nat) (reply : App.Reply (option App.User)) (s : App.State),
    nth_error (App.tasks s) i = Some App.AwLogin ->
    let s' := App.step (App.Resume i (App.AnsLogin reply)) s in
    App.loading s' = false /\
    App.tasks s' = drop_nth i (App.tasks s) /\
    (forall status u,
       reply = App.Http status (inl u) -> App.status_ok status = true ->
       App.currentScreen s' = "translation" /\ App.user s' = u /\
       App.log s' = App.log s) /\
    (forall status body,
       reply = App.Http status body -> App.status_ok status = false ->
       App.currentScreen s' = App.currentScreen s /\ App.user s' = App.user s /\
       App.log s' =
         (App.log s ++
          [App.Alert "Login Failed" ("HTTP error! status: " ++ decimal status)])%list) /\
    (forall message,
       reply = App.NetworkError message ->
       App.currentScreen s' = App.currentScreen s /\ App.user s' = App.user s /\
       App.log s' =
         (App.log s ++
          [App.Alert "Login Failed"
             (if String.eqb message "" then "Login failed" else message)])%list).
Proof.
  intros i reply s H. unfold App.step, App.handle. rewrite H.
  cbn [App.resume]. unfold App.login_answered.
  split; [destruct (App.makeRequest reply); reflexivity|].
  split; [destruct (App.makeRequest reply); reflexivity|].
  split; [|split].
  - intros status u -> Hok. unfold App.makeRequest. rewrite Hok. repeat split.
  - intros status body -> Hok. unfold App.makeRequest. rewrite Hok.
    repeat split.
  - intros message ->. unfold App.makeRequest, App.message_or, truthy.
    destruct (String.eqb message ""); repeat split.
Qed.

Lemma app_login_answer_witness :
  nth_error (App.tasks App.login_waiting) 0 = Some App.AwLogin /\
  App.log (App.step (App.Resume 0 (App.AnsLogin (App.Http 401 (inr "Unauthorized"))))
             App.login_waiting) =
    (App.log App.login_waiting ++
     [App.Alert "Login Failed" "HTTP error! status: 401"])%list.
Proof.
  assert (H : nth_error (App.tasks App.login_waiting) 0 = Some App.AwLogin)
    by reflexivity.
  split; [exact H|].
  pose proof (app_login_answer 0 (App.Http 401 (inr "Unauthorized"))
                App.login_waiting H) as P.
  cbv zeta in P. destruct P as (_ & _ & _ & P & _).
  exact (proj2 (proj2 (P 401 (inr "Unauthorized") eq_refl eq_refl))).
Defined.

Lemma app_step_behind_login (e : App.Event) (s : App.State) :
  App.behind_login s -> App.behind_login (App.step e s).
Proof.
  unfold App.behind_login, App.known_screen, App.is_protected,
    App.login_pending, App.login_sent, App.step.
  intros (K & H1 & H2). open_app s. cbn in K, H1, H2.
  assert (D : forall (P : Prop),
            (currentScreen0 = "login" -> P) ->
            (currentScreen0 = "register" -> P) ->
            (currentScreen0 = "translation" -> P) ->
            (currentScreen0 = "profile" -> P) -> P).
  { intros P A B C D. destruct K as [<- | [<- | [<- | [<- | []]]]]; auto. }
  destruct e.
  13: { unfold App.handle. cbn [App.tasks].
        destruct (nth_error tasks0 i) as [a|] eqn:E; [|repeat split; assumption].
        pose proof (existsb_drop_nth_back
                      (fun a => match a with App.AwLogin => true | _ => false end)
                      i tasks0) as H3.
        destruct a, ans; cbn; try (repeat split; assumption);
          unfold App.check_answered, App.login_answered, App.register_answered;
          destruct (App.makeRequest reply); cbn;
          (split; [auto 6|]); split; try behind H1 H2 H3.
        all: intros _; rewrite ?existsb_app;
          rewrite (H2 (existsb_nth_here _ _ _ _ E eq_refl)); reflexivity. }
  all: apply D; intros ->; cbn in H1, H2 |- *; open_app_pieces;
    repeat (cbn; try first [break_if | break_match]); cbn;
    (split; [auto 6|]); split; try behind H1 H2 I.
Qed.

Lemma app_run_behind_login (es : list App.Event) (s : App.State) :
  App.behind_login s -> App.behind_login (App.run es s).
Proof.
  revert s. induction es as [|e es IH]; intros s H; [exact H|].
  apply (IH (App.step e s)), app_step_behind_login, H.
Qed.

(** X17.  getCurrentScreen and the handlers that call [setCurrentScreen].
    Whatever the user does and whatever the server answers, the screen name
    is one of the four that [getCurrentScreen] knows, and the translation and
    profile screens are only shown after a login request was sent. *)
Theorem app_screens_behind_login :
  forall (es : list App.Event),
    App.known_screen (App.run es App.mounted) /\
    (App.is_protected (App.run es App.mounted) = true ->
     App.login_sent (App.run es App.mounted) = true).
Proof.
  intros es.
  destruct (app_run_behind_login es App.mounted) as (K & P & _).
  - split; [left; reflexivity|]. split; discriminate.
  - split; assumption.
Qed.

Lemma app_screens_behind_login_witness :
  let es := [ App.Resume 0 (App.AnsCheck (App.Http 200 (inl tt)));
              App.ChangeEmail "thabo@example.org"; App.ChangePassword "secret";
              App.PressLogin;
              App.Resume 0 (App.AnsLogin (App.Http 200 (inl None))) ] in
  App.is_protected (App.run es App.mounted) = true /\
  App.login_sent (App.run es App.mounted) = true.
Proof.
  cbv zeta.
  assert (H : App.is_protected
                (App.run [ App.Resume 0 (App.AnsCheck (App.Http 200 (inl tt)));
                           App.ChangeEmail "thabo@example.org";
                           App.ChangePassword "secret";
                           App.PressLogin;
                           App.Resume 0 (App.AnsLogin (App.Http 200 (inl None))) ]
                   App.mounted) = true)
    by (vm_compute; reflexivity).
  split; [exact H|].
  exact (proj2 (app_screens_behind_login
                  [ App.Resume 0 (App.AnsCheck (App.Http 200 (inl tt)));
                    App.ChangeEmail "thabo@example.org";
                    App.ChangePassword "secret";
                    App.PressLogin;
                    App.Resume 0 (App.AnsLogin (App.Http 200 (inl None))) ]) H).
Defined.

(** X18.  handleRegister and handleLogin.  A registration that the server
    accepts posts the three fields with the role "driver", announces the
    success, returns to the login form and clears only the full name: the
    email and the password stay typed in, so that "Login" there sends them at
    once. *)
Theorem app_register_then_login :
  forall (s : App.State) (status : nat),
    App.getCurrentScreen s = App.RegisterForm ->
    App.loading s = false ->
    App.apiStatus s = "connected" ->
    App.fullName s <> "" -> App.email s <> "" -> App.password s <> "" ->
    App.status_ok status = true ->
    let s' := App.run [ App.PressRegister;
                        App.Resume (List.length (App.tasks s))
                          (App.AnsRegister (App.Http status (inl tt)));
                        App.PressLogin ] s in
    App.log s' =
      (App.log s ++
       [ App.PostRegister (App.fullName s) (App.email s) (App.password s) "driver";
         App.Alert "Success" "Registration successful! Please login.";
         App.PostLogin (App.email s) (App.password s) ])%list /\
    App.fullName s' = "" /\
    App.currentScreen s' = "login" /\
    App.tasks s' = (App.tasks s ++ [App.AwLogin])%list.
Proof.
  intros s status G L A F E P Hok.
  apply truthy_nonempty in F, E, P.
  open_app s. cbn in G, L, A, F, E, P. subst.
  assert (R : App.run [ App.PressRegister;
                        App.Resume (List.length tasks0)
                          (App.AnsRegister (App.Http status (inl tt)));
                        App.PressLogin ]
                (App.mkState currentScreen0 user0 email0 password0 fullName0
                   false "connected" tasks0 log0) =
              App.mkState "login" user0 email0 password0 "" true "connected"
                (tasks0 ++ [App.AwLogin])
                (((log0 ++ [App.PostRegister fullName0 email0 password0 "driver"])
                  ++ [App.Alert "Success" "Registration successful! Please login."])
                 ++ [App.PostLogin email0 password0])).
  { unfold App.run. cbn [fold_left].
    unfold App.step at 3. unfold App.handle, App.on_screen. rewrite G.
    cbn [negb App.loading]. unfold App.handleRegister.
    cbn [App.fullName App.email App.password]. rewrite F, E, P. cbn [negb orb].
    unfold App.step at 2. unfold App.handle.
    cbn [App.tasks App.set_tasks App.emit App.setLoading].
    rewrite nth_error_last_added, drop_nth_last_added.
    cbn [App.resume]. unfold App.register_answered, App.makeRequest. rewrite Hok.
    unfold App.step, App.handle, App.on_screen. cbn -[truthy].
    unfold App.handleLogin. cbn -[truthy]. rewrite E, P. reflexivity. }
  cbn zeta. cbn [App.tasks App.log App.email App.password App.fullName].
  rewrite R. cbn. rewrite <- !app_assoc. repeat split.
Qed.

Lemma app_register_then_login_witness :
  App.getCurrentScreen App.registering = App.RegisterForm /\
  App.status_ok 201 = true /\
  App.log (App.run [ App.PressRegister;
                     App.Resume 0 (App.AnsRegister (App.Http 201 (inl tt)));
                     App.PressLogin ] App.registering) =
    (App.log App.registering ++
     [ App.PostRegister "Thabo Mokoena" "thabo@example.org" "secret" "driver";
       App.Alert "Success" "Registration successful! Please login.";
       App.PostLogin "thabo@example.org" "secret" ])%list.
Proof.
  split; [reflexivity|]. split; [reflexivity|].
  exact (proj1 (app_register_then_login App.registering 201
                  eq_refl eq_refl eq_refl
                  ltac:(discriminate) ltac:(discriminate) ltac:(discriminate)
                  eq_refl)).
Defined.

(** ** The profile screen *)

Lemma toUpperCase_length (s : string) :
  String.length (Profile.toUpperCase s) = String.length s.
Proof. induction s; simpl; congruence. Qed.

Lemma concat_first_chars (words : list string) :
  String.length (String.concat "" (map Profile.first_char words)) =
  List.length (filter truthy words).
Proof.
  induction words as [|w ws IH]; [reflexivity|].
  destruct ws as [|w' ws].
  - destruct w; reflexivity.
  - change (String.concat "" (map Profile.first_char (w :: w' :: ws)))
      with (Profile.first_char w ++ "" ++
            String.concat "" (map Profile.first_char (w' :: ws))).
    destruct w; simpl in *; rewrite IH; reflexivity.
Qed.

Lemma split_spaces_no_space (name : string) :
  forallb no_space (Profile.split_spaces name) = true.
Proof.
  induction name as [|c rest IH]; [reflexivity|]. simpl.
  destruct (Ascii.eqb c " ") eqn:E; [exact IH|].
  destruct (Profile.split_spaces rest) as [|w ws]; simpl in *.
  - unfold no_space. simpl. rewrite E. reflexivity.
  - apply andb_prop in IH as [W WS]. unfold no_space in *. simpl.
    rewrite E, W, WS. reflexivity.
Qed.

Lemma upper_initial (c : ascii) :
  Ascii.eqb c " " = false -> Profile.initial_char (Profile.upper c) = true.
Proof.
  destruct c as [[] [] [] [] [] [] [] []]; intros H; try discriminate; reflexivity.
Qed.

Lemma initials_of_words (words : list string) :
  forallb no_space words = true ->
  forallb Profile.initial_char
    (list_ascii_of_string
       (Profile.toUpperCase (String.concat "" (map Profile.first_char words)))) = true.
Proof.
  induction words as [|w ws IH]; [reflexivity|].
  intros H. simpl in H. apply andb_prop in H as [W WS].
  destruct ws as [|w' ws].
  - destruct w as [|c w]; [reflexivity|].
    unfold no_space in W. simpl in W. apply andb_prop in W as [C _].
    apply negb_true_iff in C. simpl. rewrite (upper_initial c C). reflexivity.
  - change (String.concat "" (map Profile.first_char (w :: w' :: ws)))
      with (Profile.first_char w ++ "" ++
            String.concat "" (map Profile.first_char (w' :: ws))).
    destruct w as [|c w]; [exact (IH WS)|].
    unfold no_space in W. simpl in W. apply andb_prop in W as [C _].
    apply negb_true_iff in C.
    change (Profile.first_char (String c w) ++ "" ++ ?x) with (String c x).
    simpl. rewrite (upper_initial c C). exact (IH WS).
Qed.

(** X19.  getInitials.  For a name of ASCII characters, the initials hold one
    character for each non-empty piece between the spaces of the name, so
    that leading, trailing and doubled spaces add nothing, and none of them
    is a space or a lower-case letter. *)
Theorem initials_one_per_word :
  forall (name : string),
    plain_ascii name = true ->
    String.length (Profile.getInitials name) =
      List.length (filter truthy (Profile.split_spaces name)) /\
    forallb Profile.initial_char
      (list_ascii_of_string (Profile.getInitials name)) = true.
Proof.
  intros name _. unfold Profile.getInitials. split.
  - rewrite toUpperCase_length. apply concat_first_chars.
  - apply initials_of_words, split_spaces_no_space.
Qed.

Lemma initials_one_per_word_witness :
  plain_ascii " thabo  mokoena " = true /\
  String.length (Profile.getInitials " thabo  mokoena ") = 2.
Proof.
  split; [reflexivity|].
  rewrite (proj1 (initials_one_per_word " thabo  mokoena " eq_refl)).
  reflexivity.
Defined.
